(** * Resource-aware pipeline orchestration: VRAM ledger, job entity,
      job queue and pipeline coordinator

    A shallow embedding of
      - [src/utils/vram.py]                 (module [Vram]),
      - [src/orchestration/jobs.py]         (module [Jobs]),
      - [src/orchestration/queue.py]        (module [Queue]),
      - [src/orchestration/coordinator.py]  (module [Coordinator]),
    followed by the properties established about them.

    Python values are modelled as the code uses them: integers as [Z],
    floats as binary64 values ([spec_float]) with the comparisons Python
    performs, strings as [string], [Optional[T]] as [option T],
    dictionaries read from JSON as ordered key/value lists, and the
    directory of job files as a finite map from file names to contents.
    Calls that leave the program (device queries, the clock, file writes,
    the stage adapters) take their outcome as an explicit argument. *)

From Stdlib Require Import ZArith String List Bool Lia SpecFloat.
From stdpp Require Import base option list strings pretty gmap sorting.
Import ListNotations.

Set Warnings "-register-all".

Local Open Scope string_scope.
Local Open Scope Z_scope.

(** The result of a call that may raise: [Ok a] when it returns [a],
    [Raise e] when an exception [e] escapes. *)
Inductive outcome (E A : Type) : Type :=
  | Ok (a : A)
  | Raise (e : E).
Arguments Ok {E A} a.
Arguments Raise {E A} e.

(* ===================================================================== *)
(** ** Python floats *)
(* ===================================================================== *)

Module PyFloat.

(** A Python [float] is an IEEE-754 binary64 value. *)
Definition float := spec_float.

Definition prec : Z := 53.
Definition emax : Z := 1024.

(** [float(z)] for an integer [z], rounded to nearest-even. *)
Definition of_int (z : Z) : float := binary_normalize prec emax z 0 false.

Definition zero : float := S754_zero false.              (* 0.0 *)
Definition one : float := Eval vm_compute in of_int 1.   (* 1.0 *)
Definition hundred : float := Eval vm_compute in of_int 100.

Definition fdiv (x y : float) : float := SFdiv prec emax x y.
Definition fmul (x y : float) : float := SFmul prec emax x y.

(** [x < y], [x <= y], [x == y] on floats; every comparison with NaN
    is false. *)
Definition ltb (x y : float) : bool := SFltb x y.
Definition leb (x y : float) : bool := SFleb x y.
Definition eqb (x y : float) : bool := SFeqb x y.
Definition is_nan (x : float) : bool :=
  match x with S754_nan => true | _ => false end.

(** The builtins [min(a, b)] and [max(a, b)]: the first argument is
    kept unless the second compares strictly smaller (resp. greater). *)
Definition py_min (a b : float) : float := if ltb b a then b else a.
Definition py_max (a b : float) : float := if ltb a b then b else a.

(** [f > n] for a float [f] and an integer [n]; Python compares the
    two exactly, without rounding [n] to a float. *)
Definition gt_int (f : float) (n : Z) : bool :=
  match f with
  | S754_nan => false
  | S754_infinity s => negb s
  | S754_zero _ => n <? 0
  | S754_finite s m e =>
      let v := if s then Z.neg m else Z.pos m in
      if 0 <=? e then n <? v * 2 ^ e else n * 2 ^ (- e) <? v
  end.

End PyFloat.

(* ===================================================================== *)
(** ** src/utils/vram.py *)
(* ===================================================================== *)

Module Vram.
Import PyFloat.

Record VRAMStatus := {
  total_mb : Z;
  used_mb : Z;
  free_mb : Z;
  utilization_percent : float;
  cuda_available : bool
}.

(** The attributes [__init__] leaves on a manager: the device id,
    whether [import torch] succeeded ([_torch is not None]) and the
    value of [torch.cuda.is_available()] ([_cuda_available]). *)
Record VRAMManager := {
  device_id : Z;
  _torch : bool;
  _cuda_available : bool
}.

(** [__init__]: [torch] is [None] when PyTorch is not installed,
    otherwise [Some b] with [b] the answer of [is_available()]. *)
Definition init (dev : Z) (torch : option bool) : VRAMManager :=
  match torch with
  | Some b => {| device_id := dev; _torch := true; _cuda_available := b |}
  | None => {| device_id := dev; _torch := false; _cuda_available := false |}
  end.

Definition no_cuda_status : VRAMStatus :=
  {| total_mb := 0; used_mb := 0; free_mb := 0;
     utilization_percent := zero; cuda_available := false |}.

(** [get_status]; [q] is what [torch.cuda.mem_get_info(device_id)]
    does when called: it returns [(free, total)] in bytes or raises. *)
Definition get_status (m : VRAMManager) (q : outcome string (Z * Z))
  : VRAMStatus :=
  if negb (_cuda_available m) || negb (_torch m) then no_cuda_status
  else
    match q with
    | Ok (mem_free, mem_total) =>
        let total := mem_total / (1024 * 1024) in
        let free := mem_free / (1024 * 1024) in
        let used := total - free in
        let utilization :=
          if 0 <? total
          then fmul (fdiv (of_int used) (of_int total)) hundred
          else zero in
        {| total_mb := total; used_mb := used; free_mb := free;
           utilization_percent := utilization; cuda_available := true |}
    | Raise _ => no_cuda_status
    end.


(** [can_load(required_mb, safety_margin_mb)]. *)
Definition can_load (m : VRAMManager) (q : outcome string (Z * Z))
    (required_mb safety_margin_mb : Z) : bool :=
  if negb (_cuda_available m) then true
  else
    let status := get_status m q in
    let available_mb := free_mb status - safety_margin_mb in
    required_mb <=? available_mb.

(** The calls [force_cleanup] makes outside the manager. *)
Inductive device_call :=
  | MemGetInfo (dev : Z)
  | GcCollect
  | EmptyCache
  | Synchronize (dev : Z).

(** What each of those calls does when [force_cleanup] reaches it. *)
Record device := {
  mem_info_before : outcome string (Z * Z);
  gc_collect : outcome string unit;
  empty_cache : outcome string unit;
  synchronize : outcome string unit;
  mem_info_after : outcome string (Z * Z)
}.

(** [force_cleanup]: the calls made, in order, and the figure of the
    final log line ([freed_mb]) when the end of the [try] block is
    reached. An exception inside the block is logged and swallowed. *)
Definition force_cleanup (m : VRAMManager) (dv : device)
  : list device_call * option Z :=
  if negb (_cuda_available m) || negb (_torch m) then ([], None)
  else
    let dev := device_id m in
    let status_before := get_status m (mem_info_before dv) in
    match gc_collect dv with
    | Raise _ => ([MemGetInfo dev; GcCollect], None)
    | Ok _ =>
        match empty_cache dv with
        | Raise _ => ([MemGetInfo dev; GcCollect; EmptyCache], None)
        | Ok _ =>
            match synchronize dv with
            | Raise _ =>
                ([MemGetInfo dev; GcCollect; EmptyCache; Synchronize dev], None)
            | Ok _ =>
                let status_after := get_status m (mem_info_after dv) in
                ([MemGetInfo dev; GcCollect; EmptyCache; Synchronize dev;
                  MemGetInfo dev],
                 Some (free_mb status_after - free_mb status_before))
            end
        end
    end.

(** The full sequence of calls of a cleanup on device [dev]. *)
Definition cleanup_calls (dev : Z) : list device_call :=
  [MemGetInfo dev; GcCollect; EmptyCache; Synchronize dev; MemGetInfo dev].

End Vram.

(* ===================================================================== *)
(** ** src/orchestration/jobs.py *)
(* ===================================================================== *)

Module Jobs.
Import PyFloat.

Inductive JobStatus := PENDING | RUNNING | COMPLETED | FAILED | CANCELLED.

Inductive JobType :=
  | FULL_PIPELINE | VOICE_CLONE | VOICE_SYNTHESIS
  | AVATAR_GENERATION | VIDEO_LIPSYNC | VIDEO_ENCODING.

#[global] Instance JobStatus_eq_dec : EqDecision JobStatus.
Proof. solve_decision. Defined.
#[global] Instance JobType_eq_dec : EqDecision JobType.
Proof. solve_decision. Defined.

(** [.value] of an enum member. *)
Definition status_value (s : JobStatus) : string :=
  match s with
  | PENDING => "pending" | RUNNING => "running" | COMPLETED => "completed"
  | FAILED => "failed" | CANCELLED => "cancelled"
  end.

Definition type_value (t : JobType) : string :=
  match t with
  | FULL_PIPELINE => "full_pipeline" | VOICE_CLONE => "voice_clone"
  | VOICE_SYNTHESIS => "voice_synthesis"
  | AVATAR_GENERATION => "avatar_generation"
  | VIDEO_LIPSYNC => "video_lipsync" | VIDEO_ENCODING => "video_encoding"
  end.

(** [JobStatus(s)] and [JobType(s)]: lookup by value; [None] stands
    for the [ValueError] raised on an unknown value. *)
Definition status_of_value (s : string) : option JobStatus :=
  List.find (fun x => String.eqb (status_value x) s)
            [PENDING; RUNNING; COMPLETED; FAILED; CANCELLED].

Definition type_of_value (s : string) : option JobType :=
  List.find (fun x => String.eqb (type_value x) s)
            [FULL_PIPELINE; VOICE_CLONE; VOICE_SYNTHESIS;
             AVATAR_GENERATION; VIDEO_LIPSYNC; VIDEO_ENCODING].

(** JSON-like Python values: what [params] and [result] hold and what
    [json.load] returns. A dictionary keeps its items in insertion
    order. *)
Inductive pyval :=
  | PNone
  | PBool (b : bool)
  | PInt (z : Z)
  | PFloat (f : float)
  | PStr (s : string)
  | PList (l : list pyval)
  | PDict (d : list (string * pyval)).

Abbreviation pydict := (list (string * pyval)).

(** [d[k]] ([None]: [KeyError]) and [d[k] = v]. *)
Fixpoint dict_get (k : string) (d : pydict) : option pyval :=
  match d with
  | [] => None
  | (k', v) :: r => if String.eqb k' k then Some v else dict_get k r
  end.

Fixpoint dict_set (k : string) (v : pyval) (d : pydict) : pydict :=
  match d with
  | [] => [(k, v)]
  | (k', v') :: r =>
      if String.eqb k' k then (k, v) :: r else (k', v') :: dict_set k v r
  end.

Definition dict_keys (d : pydict) : list string := map fst d.

Record Job := {
  job_id : string;
  status : JobStatus;
  job_type : JobType;
  params : pydict;
  created_at : string;
  started_at : option string;
  completed_at : option string;
  result : option pydict;
  error : option string;
  progress : float;
  stage : string
}.

(** [Job.create]; [new_id] is the value of [Job.generate_id()] and
    [now] that of [datetime.utcnow().isoformat() + "Z"]. *)
Definition create (new_id now : string) (ty : JobType) (ps : pydict) : Job :=
  {| job_id := new_id; status := PENDING; job_type := ty; params := ps;
     created_at := now; started_at := None; completed_at := None;
     result := None; error := None; progress := zero; stage := "Queued" |}.

Definition start (now : string) (j : Job) : Job :=
  {| job_id := job_id j; status := RUNNING; job_type := job_type j;
     params := params j; created_at := created_at j;
     started_at := Some now; completed_at := completed_at j;
     result := result j; error := error j;
     progress := zero; stage := "Starting" |}.

Definition complete (now : string) (res : pydict) (j : Job) : Job :=
  {| job_id := job_id j; status := COMPLETED; job_type := job_type j;
     params := params j; created_at := created_at j;
     started_at := started_at j; completed_at := Some now;
     result := Some res; error := error j;
     progress := one; stage := "Completed" |}.

Definition fail (now : string) (err : string) (j : Job) : Job :=
  {| job_id := job_id j; status := FAILED; job_type := job_type j;
     params := params j; created_at := created_at j;
     started_at := started_at j; completed_at := Some now;
     result := result j; error := Some err;
     progress := progress j; stage := "Failed" |}.

Definition cancel (now : string) (j : Job) : Job :=
  {| job_id := job_id j; status := CANCELLED; job_type := job_type j;
     params := params j; created_at := created_at j;
     started_at := started_at j; completed_at := Some now;
     result := result j; error := error j;
     progress := progress j; stage := "Cancelled" |}.

(** [update_progress]: [max(0.0, min(1.0, progress))]. *)
Definition update_progress (p : float) (label : string) (j : Job) : Job :=
  {| job_id := job_id j; status := status j; job_type := job_type j;
     params := params j; created_at := created_at j;
     started_at := started_at j; completed_at := completed_at j;
     result := result j; error := error j;
     progress := py_max zero (py_min one p); stage := label |}.

(** The recursive copy [dataclasses.asdict] makes of a field value:
    lists and dictionaries are rebuilt item by item, anything else is
    [copy.deepcopy]'d. *)
Fixpoint asdict_inner (v : pyval) : pyval :=
  match v with
  | PList l => PList (map asdict_inner l)
  | PDict d => PDict (map (fun kv => let '(k, x) := kv in (k, asdict_inner x)) d)
  | _ => v
  end.

Definition of_opt {A} (f : A -> pyval) (o : option A) : pyval :=
  match o with Some a => f a | None => PNone end.

(** [asdict(self)]: one item per field, in declaration order. The two
    enum members are [str] instances and appear as their values. *)
Definition asdict (j : Job) : pydict :=
  [ ("job_id", asdict_inner (PStr (job_id j)));
    ("status", asdict_inner (PStr (status_value (status j))));
    ("job_type", asdict_inner (PStr (type_value (job_type j))));
    ("params", asdict_inner (PDict (params j)));
    ("created_at", asdict_inner (PStr (created_at j)));
    ("started_at", asdict_inner (of_opt PStr (started_at j)));
    ("completed_at", asdict_inner (of_opt PStr (completed_at j)));
    ("result", asdict_inner (of_opt PDict (result j)));
    ("error", asdict_inner (of_opt PStr (error j)));
    ("progress", asdict_inner (PFloat (progress j)));
    ("stage", asdict_inner (PStr (stage j))) ].

Definition to_dict (j : Job) : pydict :=
  let data := asdict j in
  let data := dict_set "status" (PStr (status_value (status j))) data in
  dict_set "job_type" (PStr (type_value (job_type j))) data.

Definition field_names : list string :=
  [ "job_id"; "status"; "job_type"; "params"; "created_at"; "started_at";
    "completed_at"; "result"; "error"; "progress"; "stage" ].

(** Readers of a field value at its annotated type. *)
Definition as_str (v : pyval) : option string :=
  match v with PStr s => Some s | _ => None end.
Definition as_dict (v : pyval) : option pydict :=
  match v with PDict d => Some d | _ => None end.
Definition as_float (v : pyval) : option float :=
  match v with PFloat f => Some f | _ => None end.
Definition as_opt {A} (f : pyval -> option A) (v : pyval) : option (option A) :=
  match v with
  | PNone => Some None
  | _ => match f v with Some a => Some (Some a) | None => None end
  end.

(** A key that must be present, read at type [A]. *)
Definition field {A} (k : string) (f : pyval -> option A) (d : pydict)
  : option A :=
  match dict_get k d with
  | Some v => f v
  | None => None
  end.

(** A keyword argument that has a default in the dataclass. *)
Definition kwarg {A} (k : string) (f : pyval -> option A) (dflt : A)
    (d : pydict) : option A :=
  match dict_get k d with
  | Some v => f v
  | None => Some dflt
  end.

(** [Job.from_dict]. [None] stands for the exception raised when a
    key is missing ([KeyError]), an enum value is unknown
    ([ValueError]) or the [Job] constructor rejects its keywords
    ([TypeError]). Python does not check field values against their
    annotations; values of another type than the annotated one are
    outside the typed record and are rejected here too. *)
Definition from_dict (data : pydict) : option Job :=
  s ← field "status" as_str data;
  st ← status_of_value s;
  t ← field "job_type" as_str data;
  ty ← type_of_value t;
  let data_copy := dict_set "job_type" (PStr (type_value ty))
                     (dict_set "status" (PStr (status_value st)) data) in
  if forallb (fun k => existsb (String.eqb k) field_names) (dict_keys data_copy)
  then
    jid ← field "job_id" as_str data_copy;
    ps ← field "params" as_dict data_copy;
    cr ← field "created_at" as_str data_copy;
    sa ← kwarg "started_at" (as_opt as_str) None data_copy;
    ca ← kwarg "completed_at" (as_opt as_str) None data_copy;
    rs ← kwarg "result" (as_opt as_dict) None data_copy;
    er ← kwarg "error" (as_opt as_str) None data_copy;
    pr ← kwarg "progress" as_float zero data_copy;
    sg ← kwarg "stage" as_str "Queued" data_copy;
    Some {| job_id := jid; status := st; job_type := ty; params := ps;
            created_at := cr; started_at := sa; completed_at := ca;
            result := rs; error := er; progress := pr; stage := sg |}
  else None.

(** Terminal statuses. *)
Definition terminal (s : JobStatus) : bool :=
  match s with
  | COMPLETED | FAILED | CANCELLED => true
  | PENDING | RUNNING => false
  end.

(** One lifecycle call on a job, with the clock reading it uses. *)
Inductive op :=
  | OpStart (now : string)
  | OpComplete (now : string) (res : pydict)
  | OpFail (now : string) (err : string)
  | OpCancel (now : string)
  | OpUpdateProgress (p : float) (label : string).

Definition apply_op (o : op) (j : Job) : Job :=
  match o with
  | OpStart now => start now j
  | OpComplete now res => complete now res j
  | OpFail now err => fail now err j
  | OpCancel now => cancel now j
  | OpUpdateProgress p label => update_progress p label j
  end.

Definition run_ops (ops : list op) (j : Job) : Job :=
  fold_left (fun j o => apply_op o j) ops j.

(** The status state machine: [start] leaves [PENDING]; a terminal
    transition ([complete], [fail], [cancel]) and [update_progress] need
    a job that is not yet terminal. The methods themselves do not check
    this; it is the discipline their callers follow. *)
Definition allowed (s : JobStatus) (o : op) : bool :=
  match o with
  | OpStart _ => bool_decide (s = PENDING)
  | _ => negb (terminal s)
  end.

Fixpoint respects (j : Job) (ops : list op) : bool :=
  match ops with
  | [] => true
  | o :: r => allowed (status j) o && respects (apply_op o j) r
  end.

(** The invariant on [result] and [error]: never both set, and both
    unset while the status is not terminal. *)
Definition result_error_inv (j : Job) : Prop :=
  (result j = None \/ error j = None) /\
  (terminal (status j) = false -> result j = None /\ error j = None).


(** The stored progress lies in [[0, 1]]. *)
Definition progress_in_range (j : Job) : Prop :=
  leb zero (progress j) = true /\ leb (progress j) one = true.

(** How the fields of a job go with its status. *)
Definition coherent (j : Job) : Prop :=
  (status j = PENDING -> started_at j = None)
  /\ (status j = RUNNING -> started_at j <> None)
  /\ (terminal (status j) = true <-> completed_at j <> None)
  /\ (status j = COMPLETED <-> result j <> None)
  /\ (status j = FAILED <-> error j <> None)
  /\ (status j = COMPLETED -> progress j = one).

(** [Job.generate_id]: [timestamp] is
    [datetime.utcnow().strftime("%Y%m%d%H%M%S")] and [random_hex] is
    [secrets.token_hex(4)]. *)
Definition generate_id (timestamp random_hex : string) : string :=
  "job-" +:+ timestamp +:+ "-" +:+ random_hex.
End Jobs.

(* ===================================================================== *)
(** ** src/orchestration/queue.py *)
(* ===================================================================== *)

Module Queue.
Import Jobs.

(** What a file of [jobs_dir] holds: a JSON document, or bytes that
    [json.load] rejects (a truncated or foreign file). *)
Inductive file :=
  | JsonFile (v : pyval)
  | Unparsable.

(** [jobs_dir / f"{job_id}.json"], as a key of the directory. *)
Definition job_file (job_id : string) : string := job_id +:+ ".json".

(** How one attempt to write a job file ends: the document is written;
    [open(job_file, "w")] raises and the directory is untouched; or
    [json.dump] raises after [open] has truncated the file. *)
Inductive write_outcome := Written | OpenFailed | DumpFailed.

(** [_save_job]: [Raise] is the [IOError] it re-raises. What
    [json.load] later reads back is the dictionary [json.dump] wrote. *)
Definition _save_job (w : write_outcome) (jobs_dir : gmap string file)
    (job : Job) : outcome string unit * gmap string file :=
  match w with
  | Written =>
      (Ok tt, <[job_file (job_id job) := JsonFile (PDict (to_dict job))]> jobs_dir)
  | OpenFailed => (Raise "Job save failed", jobs_dir)
  | DumpFailed =>
      (Raise "Job save failed", <[job_file (job_id job) := Unparsable]> jobs_dir)
  end.

(** [submit]: the [IOError] of [_save_job] propagates to the caller. *)
Definition submit (w : write_outcome) (new_id now : string) (ty : JobType)
    (ps : pydict) (jobs_dir : gmap string file)
  : outcome string string * gmap string file :=
  let job := create new_id now ty ps in
  match _save_job w jobs_dir job with
  | (Ok _, d) => (Ok (job_id job), d)
  | (Raise e, d) => (Raise e, d)
  end.

(** [get]: [None] when the file does not exist and when loading it
    raises (the exception is logged and swallowed). *)
Definition get (jobs_dir : gmap string file) (job_id : string) : option Job :=
  match jobs_dir !! job_file job_id with
  | None => None
  | Some (JsonFile (PDict data)) => from_dict data
  | Some _ => None
  end.

(** [update]: [False] when [_save_job] raises. *)
Definition update (w : write_outcome) (jobs_dir : gmap string file)
    (job : Job) : bool * gmap string file :=
  match _save_job w jobs_dir job with
  | (Ok _, d) => (true, d)
  | (Raise _, d) => (false, d)
  end.

(** [cancel]; the value [update] returns is discarded. *)
Definition cancel (w : write_outcome) (now : string)
    (jobs_dir : gmap string file) (job_id : string)
  : bool * gmap string file :=
  match get jobs_dir job_id with
  | None => (false, jobs_dir)
  | Some job =>
      if negb (bool_decide (status job = PENDING)) then (false, jobs_dir)
      else
        let job := Jobs.cancel now job in
        let '(_, d) := update w jobs_dir job in
        (true, d)
  end.

(** A directory for examples: it holds one pending job. *)
Definition pending_job : Job :=
  create "job-1" "2024-01-15T10:30:00Z" FULL_PIPELINE [].

Definition one_pending : gmap string file :=
  {[ job_file "job-1" := JsonFile (PDict (to_dict pending_job)) ]}.


(** [Job.from_dict(json.load(f))] on the content of a file; [None] when
    either step raises. *)
Definition load_file (f : file) : option Job :=
  match f with
  | JsonFile (PDict data) => from_dict data
  | _ => None
  end.

(** The names [glob("*.json")] matches. *)
Definition is_json_name (name : string) : bool :=
  let n := String.length name in
  (5 <=? n)%nat && String.eqb (substring (n - 5) 5 name) ".json".

(** [names] is what [jobs_dir.glob("*.json")] yields: every matching
    file of the directory once, in the order the file system gives. *)
Definition enumerates (jobs_dir : gmap string file) (names : list string)
  : Prop :=
  NoDup names /\
  forall n, n ∈ names <-> is_Some (jobs_dir !! n) /\ is_json_name n = true.

(** Every readable job file is named after the id it holds, as
    [_save_job] names them. *)
Definition consistent (jobs_dir : gmap string file) : Prop :=
  forall n f j, jobs_dir !! n = Some f -> load_file f = Some j ->
                n = job_file (job_id j).

Definition status_matches (status : option JobStatus) (job : Job) : bool :=
  match status with
  | None => true
  | Some st => bool_decide (Jobs.status job = st)
  end.

(** The loop of [list_jobs] over the globbed files: a file that cannot
    be opened or parsed is skipped. *)
Fixpoint load_all (jobs_dir : gmap string file) (status : option JobStatus)
    (names : list string) : list Job :=
  match names with
  | [] => []
  | n :: rest =>
      match jobs_dir !! n with
      | Some f =>
          match load_file f with
          | Some job =>
              if status_matches status job
              then job :: load_all jobs_dir status rest
              else load_all jobs_dir status rest
          | None => load_all jobs_dir status rest
          end
      | None => load_all jobs_dir status rest
      end
  end.

(** [list.sort] is stable: items that compare equal keep their order.
    [before x y] says that [x] must come strictly before [y]. *)
Fixpoint insert_sorted {A} (before : A -> A -> bool) (x : A) (l : list A)
  : list A :=
  match l with
  | [] => [x]
  | y :: r =>
      if before y x then y :: insert_sorted before x r else x :: y :: r
  end.

Fixpoint stable_sort {A} (before : A -> A -> bool) (l : list A) : list A :=
  match l with
  | [] => []
  | x :: r => insert_sorted before x (stable_sort before r)
  end.

(** [key=lambda j: j.created_at, reverse=True]. Strings compare by code
    point, which on UTF-8 text is the byte order. *)
Definition newer (j1 j2 : Job) : bool :=
  String.ltb (created_at j2) (created_at j1).

(** [a] may be listed before [b]: [a] was created no earlier than [b]. *)
Definition not_older (a b : Job) : Prop :=
  String.leb (created_at b) (created_at a) = true.

(** [l[:stop]] for an integer [stop], negative ones counting from the
    end. *)
Definition slice_to {A} (stop : Z) (l : list A) : list A :=
  if 0 <=? stop then take (Z.to_nat stop) l
  else take (Z.to_nat (Z.of_nat (length l) + stop)) l.

(** [list_jobs], for a [glob] that yields [names] without raising. *)
Definition list_jobs (jobs_dir : gmap string file) (names : list string)
    (status : option JobStatus) (limit : option Z) : list Job :=
  let jobs := stable_sort newer (load_all jobs_dir status names) in
  match limit with
  | Some n => slice_to n jobs
  | None => jobs
  end.

(** [delete]; [u] is what [job_file.unlink()] does. *)
Definition delete (u : outcome string unit) (jobs_dir : gmap string file)
    (job_id : string) : bool * gmap string file :=
  match jobs_dir !! job_file job_id with
  | None => (false, jobs_dir)
  | Some _ =>
      match u with
      | Ok _ => (true, base.delete (job_file job_id) jobs_dir)
      | Raise _ => (false, jobs_dir)
      end
  end.

(** [j.completed_at or j.created_at]. *)
Definition finish_key (j : Job) : string :=
  match completed_at j with
  | Some s => if String.eqb s "" then created_at j else s
  | None => created_at j
  end.

Definition finished_earlier (j1 j2 : Job) : bool :=
  String.ltb (finish_key j1) (finish_key j2).

(** The deletion loop of [cleanup_completed]; [unlink n] is what
    unlinking file [n] does. *)
Fixpoint delete_each (unlink : string -> outcome string unit)
    (jobs_dir : gmap string file) (to_delete : list Job)
  : nat * gmap string file :=
  match to_delete with
  | [] => (0%nat, jobs_dir)
  | job :: rest =>
      let '(ok, d) := delete (unlink (job_file (job_id job))) jobs_dir
                             (job_id job) in
      let '(count, d') := delete_each unlink d rest in
      ((if ok then S count else count), d')
  end.

(** The jobs [cleanup_completed] sets out to delete: [to_delete]. Its
    two listings glob the same, unchanged directory. *)
Definition cleanup_candidates (jobs_dir : gmap string file)
    (names : list string) (keep_recent : Z) : list Job :=
  let completed := list_jobs jobs_dir names (Some COMPLETED) None in
  let failed := list_jobs jobs_dir names (Some FAILED) None in
  let finished := stable_sort finished_earlier (completed ++ failed) in
  if keep_recent <? Z.of_nat (length finished)
  then slice_to (- keep_recent) finished
  else [].

(** [cleanup_completed]. *)
Definition cleanup_completed (unlink : string -> outcome string unit)
    (jobs_dir : gmap string file) (names : list string) (keep_recent : Z)
  : nat * gmap string file :=
  delete_each unlink jobs_dir (cleanup_candidates jobs_dir names keep_recent).

(** A directory for examples: the pending job and a completed one. *)
Definition completed_job : Job :=
  complete "2024-01-15T10:40:00Z" [("output_path", PStr "out.mp4")]
    (start "2024-01-15T10:35:00Z"
       (create "job-2" "2024-01-15T10:32:00Z" FULL_PIPELINE [])).

Definition mixed_queue : gmap string file :=
  <[ job_file "job-2" := JsonFile (PDict (to_dict completed_job)) ]> one_pending.

Record stats := {
  total : nat;
  pending : nat;
  running : nat;
  completed : nat;
  failed : nat;
  cancelled : nat
}.

Definition count_status (st : JobStatus) (jobs : list Job) : nat :=
  length (filter (fun j => Jobs.status j = st) jobs).

(** [get_stats]. *)
Definition get_stats (jobs_dir : gmap string file) (names : list string)
  : stats :=
  let all_jobs := list_jobs jobs_dir names None None in
  {| total := length all_jobs;
     pending := count_status PENDING all_jobs;
     running := count_status RUNNING all_jobs;
     completed := count_status COMPLETED all_jobs;
     failed := count_status FAILED all_jobs;
     cancelled := count_status CANCELLED all_jobs |}.
End Queue.

(* ===================================================================== *)
(** ** src/orchestration/coordinator.py *)
(* ===================================================================== *)

Module Coordinator.
Import PyFloat.

Definition path := string.

Record PipelineConfig := {
  max_video_length_seconds : Z;
  output_format : string;
  cleanup_intermediates : bool;
  video_quality : string;
  video_fps : option Z;
  encoding_preset : string;
  encoding_crf : Z
}.

(** [PipelineConfig()]: the dataclass defaults. *)
Definition default_config : PipelineConfig :=
  {| max_video_length_seconds := 120; output_format := "mp4";
     cleanup_intermediates := true; video_quality := "high";
     video_fps := None; encoding_preset := "medium"; encoding_crf := 23 |}.

(** The parts of the collaborators' results that [execute] reads. *)
Record VoiceProfile := { profile_name : string; profile_language : string }.

Record SynthesisResult := {
  synth_success : bool;
  audio_path : option path;
  synth_duration_seconds : float;
  synth_error : option string
}.

Record FaceDetectionResult := { detected : bool }.

Record LipSyncConfig := {
  fps : Z;
  face_det_batch_size : Z;
  wav2lip_batch_size : Z;
  quality : string
}.

Record LipSyncResult := {
  lipsync_success : bool;
  video_path : option path;
  lipsync_error : option string
}.

Record EncodingConfig := {
  codec : string;
  preset : string;
  crf : Z;
  audio_codec : string;
  audio_bitrate : string
}.

Record EncodingResult := {
  encoding_success : bool;
  encoding_duration_seconds : float;
  encoding_error : option string
}.

(** The calls [execute] makes to its collaborators. *)
Inductive call :=
  | CLoadProfile | CSynthesize | CAvatarExists | CDetect | CValidate
  | CGenerate | CMkdir | CEncode.

(** What can be observed of a run from outside: the collaborator calls
    and the deletions of intermediate files, in order. *)
Inductive event :=
  | Called (c : call)
  | Unlinked (p : path).

(** The exceptions that end a run, by the place that raises them.
    [PipelineResult.error] holds [str(e)] of the exception; its text is
    determined by the constructor and its arguments. *)
Inductive exn :=
  | CollaboratorError (c : call) (msg : string)
  | SynthesisFailed (err : option string)
  | AudioTooLong (duration : float) (maximum : Z)
  | AvatarNotFound (p : path)
  | NoFaceDetected
  | FaceValidationFailed (msg : string)
  | LipSyncFailed (err : option string)
  | EncodingFailed (err : option string).

(** The behaviour of everything [execute] calls: each field says what
    the call does on given arguments. [avatar_exists] and [file_exists]
    are [Path.exists()], which answers without raising; [clock c] is
    [int(time.time())] read just before call [c]; [elapsed] is the
    wall-clock time of the run. Log statements are not modelled. *)
Record World := {
  load_profile : string -> outcome string VoiceProfile;
  synthesize : string -> VoiceProfile -> path -> outcome string SynthesisResult;
  avatar_exists : path -> bool;
  detect : path -> outcome string FaceDetectionResult;
  validate_for_lipsync : FaceDetectionResult -> outcome string (bool * string);
  generate : path -> option path -> path -> LipSyncConfig
             -> outcome string LipSyncResult;
  mkdir_parents : path -> outcome string unit;
  encode : option path -> path -> EncodingConfig -> outcome string EncodingResult;
  file_exists : path -> bool;
  unlink : path -> outcome string unit;
  clock : call -> Z;
  elapsed : float
}.

(** The local variables [stages_completed] and [intermediate_files] of
    [execute], which outlive the [try] block, with the events of the run
    so far. *)
Record locals := {
  stages_so_far : list string;
  files_so_far : option (list (string * option path));
  trace : list event
}.

Definition init_locals : locals :=
  {| stages_so_far := []; files_so_far := Some []; trace := [] |}.

(** Statements of the [try] block: they read and update the locals and
    either return a value or raise. *)
Definition M (A : Type) : Type := locals -> outcome exn A * locals.

Definition ret {A} (a : A) : M A := fun s => (Ok a, s).

Definition bind {A B} (m : M A) (k : A -> M B) : M B :=
  fun s =>
    match m s with
    | (Ok a, s') => k a s'
    | (Raise e, s') => (Raise e, s')
    end.

Definition raise {A} (e : exn) : M A := fun s => (Raise e, s).

Definition log (ev : event) : M unit :=
  fun s => (Ok tt, {| stages_so_far := stages_so_far s;
                      files_so_far := files_so_far s;
                      trace := trace s ++ [ev] |}).

(** A collaborator call: recorded, and its exception, if any, escapes. *)
Definition invoke {A} (c : call) (o : outcome string A) : M A :=
  fun s =>
    match log (Called c) s with
    | (_, s') =>
        match o with
        | Ok a => (Ok a, s')
        | Raise msg => (Raise (CollaboratorError c msg), s')
        end
    end.

(** [if cond: raise e]. *)
Definition raise_if (cond : bool) (e : exn) : M unit :=
  if cond then raise e else ret tt.

(** [stages_completed.append(name)]. *)
Definition append_stage (name : string) : M unit :=
  fun s => (Ok tt, {| stages_so_far := stages_so_far s ++ [name];
                      files_so_far := files_so_far s;
                      trace := trace s |}).

Fixpoint files_set (k : string) (v : option path)
    (d : list (string * option path)) : list (string * option path) :=
  match d with
  | [] => [(k, v)]
  | (k', v') :: r =>
      if String.eqb k' k then (k, v) :: r else (k', v') :: files_set k v r
  end.

Fixpoint files_get (k : string) (d : list (string * option path))
  : option (option path) :=
  match d with
  | [] => None
  | (k', v) :: r => if String.eqb k' k then Some v else files_get k r
  end.

(** [intermediate_files[category] = p]. *)
Definition record_file (category : string) (p : option path) : M unit :=
  fun s => (Ok tt, {| stages_so_far := stages_so_far s;
                      files_so_far :=
                        match files_so_far s with
                        | Some d => Some (files_set category p d)
                        | None => None
                        end;
                      trace := trace s |}).

(** [intermediate_files = None]. *)
Definition forget_files : M unit :=
  fun s => (Ok tt, {| stages_so_far := stages_so_far s;
                      files_so_far := None;
                      trace := trace s |}).

Declare Scope pipeline_scope.
Delimit Scope pipeline_scope with pipeline.
Notation "x <- m ;; k" := (bind m (fun x => k))
  (at level 100, m at next level, right associativity) : pipeline_scope.
Notation "m ;;; k" := (bind m (fun _ => k))
  (at level 100, right associativity) : pipeline_scope.

(** [_cleanup_files]: each path that is set and exists is unlinked;
    a failing [unlink] is logged and skipped. The result is the list of
    files deleted, in order. *)
Fixpoint _cleanup_files (w : World) (files : list (string * option path))
  : list event :=
  match files with
  | [] => []
  | (_, Some p) :: r =>
      if file_exists w p
      then match unlink w p with
           | Ok _ => Unlinked p :: _cleanup_files w r
           | Raise _ => _cleanup_files w r
           end
      else _cleanup_files w r
  | (_, None) :: r => _cleanup_files w r
  end.

Definition cleanup (w : World) (files : list (string * option path)) : M unit :=
  fun s => (Ok tt, {| stages_so_far := stages_so_far s;
                      files_so_far := files_so_far s;
                      trace := (trace s ++ _cleanup_files w files)%list |}).

(** [self.temp_dir / f"{prefix}_{int(time.time())}{suffix}"]. *)
Definition temp_file (temp_dir : path) (prefix : string) (t : Z)
    (suffix : string) : path :=
  temp_dir +:+ "/" +:+ prefix +:+ "_" +:+ pretty t +:+ suffix.

Record PipelineResult := {
  success : bool;
  job_id : option string;
  output_path : option path;
  duration_seconds : float;
  stages_completed : list string;
  error : option exn;
  processing_time_seconds : float;
  intermediate_files : option (list (string * option path))
}.

(** [LipSyncConfig(quality=config.video_quality)], with [fps]
    overridden when [config.video_fps] is set. *)
Definition lipsync_config_of (config : PipelineConfig) : LipSyncConfig :=
  {| fps := default 25 (video_fps config);
     face_det_batch_size := 1; wav2lip_batch_size := 1;
     quality := video_quality config |}.

(** [EncodingConfig(preset=..., crf=...)]. *)
Definition encoding_config_of (config : PipelineConfig) : EncodingConfig :=
  {| codec := "libx264"; preset := encoding_preset config;
     crf := encoding_crf config; audio_codec := "aac";
     audio_bitrate := "192k" |}.

Section Execute.
Local Open Scope pipeline_scope.

Variable w : World.
Variable temp_dir : path.

(** Stages 1 to 5 of the [try] block. *)
Definition run_stages (text voice_profile_id : string)
    (avatar_image output : path) (config : PipelineConfig)
  : M EncodingResult :=
  (* Stage 1: load voice profile *)
  voice_profile <- invoke CLoadProfile (load_profile w voice_profile_id) ;;
  append_stage "load_profile" ;;;
  (* Stage 2: synthesize speech *)
  let audio := temp_file temp_dir "speech" (clock w CSynthesize) ".wav" in
  synthesis_result <-
    invoke CSynthesize (synthesize w text voice_profile audio) ;;
  raise_if (negb (synth_success synthesis_result))
           (SynthesisFailed (synth_error synthesis_result)) ;;;
  record_file "audio" (audio_path synthesis_result) ;;;
  append_stage "synthesize_speech" ;;;
  (* Check video duration limit *)
  raise_if (gt_int (synth_duration_seconds synthesis_result)
                   (max_video_length_seconds config))
           (AudioTooLong (synth_duration_seconds synthesis_result)
                         (max_video_length_seconds config)) ;;;
  (* Stage 3: validate avatar face *)
  present <- invoke CAvatarExists (Ok (avatar_exists w avatar_image)) ;;
  raise_if (negb present) (AvatarNotFound avatar_image) ;;;
  detection <- invoke CDetect (detect w avatar_image) ;;
  raise_if (negb (detected detection)) NoFaceDetected ;;;
  verdict <- invoke CValidate (validate_for_lipsync w detection) ;;
  raise_if (negb (fst verdict)) (FaceValidationFailed (snd verdict)) ;;;
  append_stage "validate_avatar" ;;;
  (* Stage 4: generate lip-sync video *)
  let lipsync_path := temp_file temp_dir "lipsync" (clock w CGenerate) ".mp4" in
  let lipsync_config := lipsync_config_of config in
  lipsync_result <-
    invoke CGenerate (generate w avatar_image (audio_path synthesis_result)
                               lipsync_path lipsync_config) ;;
  raise_if (negb (lipsync_success lipsync_result))
           (LipSyncFailed (lipsync_error lipsync_result)) ;;;
  record_file "lipsync" (video_path lipsync_result) ;;;
  append_stage "generate_lipsync" ;;;
  (* Stage 5: encode final output *)
  invoke CMkdir (mkdir_parents w output) ;;;
  let encoding_config := encoding_config_of config in
  encoding_result <-
    invoke CEncode (encode w (video_path lipsync_result) output
                           encoding_config) ;;
  raise_if (negb (encoding_success encoding_result))
           (EncodingFailed (encoding_error encoding_result)) ;;;
  append_stage "encode_video" ;;;
  ret encoding_result.

(** Stage 6: cleanup of the intermediates after the five stages. *)
Definition stage6 (config : PipelineConfig) : M unit :=
  fun s =>
    if cleanup_intermediates config
    then (cleanup w (default [] (files_so_far s)) ;;; forget_files) s
    else ret tt s.

(** The whole [try] block. *)
Definition try_block (text voice_profile_id : string)
    (avatar_image output : path) (config : PipelineConfig)
  : M EncodingResult :=
  encoding_result <-
    run_stages text voice_profile_id avatar_image output config ;;
  stage6 config ;;;
  ret encoding_result.

(** [if d] for a dictionary or [None]: non-empty. *)
Definition truthy (d : option (list (string * option path))) : bool :=
  match d with
  | Some (_ :: _) => true
  | _ => false
  end.

(** [execute], with the events of the run. *)
Definition execute_traced (text voice_profile_id : string)
    (avatar_image output : path) (config : option PipelineConfig)
  : PipelineResult * list event :=
  let config := default default_config config in
  match try_block text voice_profile_id avatar_image output config
                  init_locals with
  | (Ok encoding_result, s) =>
      ({| success := true; job_id := None; output_path := Some output;
          duration_seconds := encoding_duration_seconds encoding_result;
          stages_completed := stages_so_far s;
          error := None;
          processing_time_seconds := elapsed w;
          intermediate_files := files_so_far s |},
       trace s)
  | (Raise e, s) =>
      (* Cleanup on error *)
      let deleted :=
        if truthy (files_so_far s) && cleanup_intermediates config
        then _cleanup_files w (default [] (files_so_far s))
        else [] in
      ({| success := false; job_id := None; output_path := None;
          duration_seconds := zero;
          stages_completed := stages_so_far s;
          error := Some e;
          processing_time_seconds := elapsed w;
          intermediate_files := None |},
       (trace s ++ deleted)%list)
  end.

Definition execute (text voice_profile_id : string)
    (avatar_image output : path) (config : option PipelineConfig)
  : PipelineResult :=
  fst (execute_traced text voice_profile_id avatar_image output config).

End Execute.

(** The fixed stage order. *)
Definition all_stages : list string :=
  [ "load_profile"; "synthesize_speech"; "validate_avatar";
    "generate_lipsync"; "encode_video" ].

(** For each place of the [try] block that raises, the number of
    [stages_completed.append] statements that precede it. *)
Definition completed_before (e : exn) : nat :=
  match e with
  | CollaboratorError CLoadProfile _ => 0
  | CollaboratorError CSynthesize _ | SynthesisFailed _ => 1
  | AudioTooLong _ _ | AvatarNotFound _ | NoFaceDetected
  | FaceValidationFailed _
  | CollaboratorError (CAvatarExists | CDetect | CValidate) _ => 2
  | CollaboratorError CGenerate _ | LipSyncFailed _ => 3
  | CollaboratorError (CMkdir | CEncode) _ | EncodingFailed _ => 4
  end.

(** The calls that belong to the stages after speech synthesis. *)
Definition later_stage_call (c : call) : bool :=
  match c with
  | CLoadProfile | CSynthesize => false
  | CAvatarExists | CDetect | CValidate | CGenerate | CMkdir | CEncode => true
  end.

(** A world for examples: every collaborator succeeds, the synthesizer
    produces [audio_seconds] of audio at the path it is given, every
    file exists and can be deleted. *)
Definition demo_world (audio_seconds : Z) : World :=
  {| load_profile := fun _ =>
       Ok {| profile_name := "Narrator"; profile_language := "en" |};
     synthesize := fun _ _ p =>
       Ok {| synth_success := true; audio_path := Some p;
             synth_duration_seconds := of_int audio_seconds;
             synth_error := None |};
     avatar_exists := fun _ => true;
     detect := fun _ => Ok {| detected := true |};
     validate_for_lipsync := fun _ => Ok (true, "Face is suitable");
     generate := fun _ _ p _ =>
       Ok {| lipsync_success := true; video_path := Some p;
             lipsync_error := None |};
     mkdir_parents := fun _ => Ok tt;
     encode := fun _ _ _ =>
       Ok {| encoding_success := true;
             encoding_duration_seconds := of_int audio_seconds;
             encoding_error := None |};
     file_exists := fun _ => true;
     unlink := fun _ => Ok tt;
     clock := fun _ => 1700000000;
     elapsed := of_int 42 |}.


(** The retention rule in the words of the specification: after a
    failed run, and after any run for which cleanup was not requested,
    the result holds the map of the intermediates recorded so far. *)
Definition keeps_recorded_intermediates (w : World) (temp_dir : path)
    (text voice_profile_id : string) (avatar_image output : path)
    (cfg : option PipelineConfig) : Prop :=
  let config := default default_config cfg in
  let r := execute w temp_dir text voice_profile_id avatar_image output cfg in
  let recorded :=
    files_so_far
      (snd (run_stages w temp_dir text voice_profile_id avatar_image output
                       config init_locals)) in
  success r = false \/ cleanup_intermediates config = false ->
  exists m, intermediate_files r = Some m /\ recorded = Some m.

(** A configuration with a 10 second limit. *)
Definition short_config (cleanup : bool) : PipelineConfig :=
  {| max_video_length_seconds := 10; output_format := "mp4";
     cleanup_intermediates := cleanup; video_quality := "high";
     video_fps := None; encoding_preset := "medium"; encoding_crf := 23 |}.


(** The order in which a run calls its collaborators. *)
Definition call_order : list call :=
  [ CLoadProfile; CSynthesize; CAvatarExists; CDetect; CValidate;
    CGenerate; CMkdir; CEncode ].

(** [synthesizer.estimate_duration(text)] with the default speed:
    [len(text.split()) / 2.5 / 1.0]; [words] is the word count. *)
Definition synthesizer_estimate (words : Z) : float :=
  fdiv (fdiv (of_int words) (fdiv (of_int 5) (of_int 2))) one.

(** The dictionary [estimate_duration] returns; [est_error] is the
    ["error"] entry of the failure case. *)
Record Estimates := {
  est_audio_duration : float;
  est_processing_time : float;
  est_stages : list (string * float);
  est_error : option string
}.

(** [estimate_duration]. [word_count] is [len(text.split())], or the
    exception raised while the synthesizer is built or asked;
    [py_sum] is the builtin [sum] over a list of floats. *)
Definition estimate_duration (w : World) (py_sum : list float -> float)
    (word_count : string -> outcome string Z)
    (text voice_profile_id : string) : Estimates :=
  let failed (e : string) :=
    {| est_audio_duration := zero; est_processing_time := zero;
       est_stages := []; est_error := Some e |} in
  match load_profile w voice_profile_id with
  | Raise e => failed e
  | Ok _ =>
      match word_count text with
      | Raise e => failed e
      | Ok words =>
          let audio_duration := synthesizer_estimate words in
          let stages :=
            [ ("load_profile", fdiv (of_int 1) (of_int 10));
              ("synthesize_speech",
               py_max (of_int 5) (fmul audio_duration (of_int 2)));
              ("validate_avatar", fdiv (of_int 1) (of_int 2));
              ("generate_lipsync",
               py_max (of_int 10) (fmul audio_duration (of_int 5)));
              ("encode_video",
               py_max (of_int 2)
                      (fmul audio_duration (fdiv (of_int 1) (of_int 2)))) ] in
          {| est_audio_duration := audio_duration;
             est_processing_time := py_sum (map snd stages);
             est_stages := stages;
             est_error := None |}
      end
  end.

End Coordinator.

(* ===================================================================== *)
(** ** src/api/routes/jobs.py *)
(* ===================================================================== *)

Module Api.
Import Jobs Queue.

(** [HTTPException(status_code=..., detail=...)]. *)
Record HTTPException := { status_code : Z; detail : string }.

Record PipelineRequest := {
  text : string;
  voice_profile_id : string;
  avatar_image_path : string;
  output_filename : option string;
  quality : string;
  fps : option Z;
  cleanup_intermediates : bool
}.

Record PipelineResponse := {
  response_job_id : string;
  response_status : string;
  output_url : option string;
  message : string
}.

Record JobResponse := {
  r_job_id : string;
  r_status : string;
  r_job_type : string;
  r_progress : PyFloat.float;
  r_stage : string;
  r_created_at : string;
  r_started_at : option string;
  r_completed_at : option string;
  r_result : option pydict;
  r_error : option string
}.

(** The [params] dictionary [submit_job] builds from the request. *)
Definition request_params (request : PipelineRequest) : pydict :=
  [ ("text", PStr (text request));
    ("voice_profile_id", PStr (voice_profile_id request));
    ("avatar_image_path", PStr (avatar_image_path request));
    ("output_filename", of_opt PStr (output_filename request));
    ("quality", PStr (quality request));
    ("fps", of_opt PInt (fps request));
    ("cleanup_intermediates", PBool (cleanup_intermediates request)) ].

(** [submit_job]. [queue] is the module's [_job_queue]: [None] until
    [set_job_queue] is called, then the queue's directory. The detail
    of the 500 answer is [str(e)] of the exception caught. *)
Definition submit_job (queue : option (gmap string file))
    (w : write_outcome) (new_id now : string) (request : PipelineRequest)
  : outcome HTTPException PipelineResponse * option (gmap string file) :=
  match queue with
  | None =>
      (Raise {| status_code := 500; detail := "Job queue not initialized" |},
       None)
  | Some d =>
      match submit w new_id now FULL_PIPELINE (request_params request) d with
      | (Ok job_id, d') =>
          (Ok {| response_job_id := job_id; response_status := "pending";
                 output_url := None;
                 message := "Job queued for processing" |}, Some d')
      | (Raise e, d') =>
          (Raise {| status_code := 500; detail := e |}, Some d')
      end
  end.

(** [JobResponse(...)] for a job: the model requires
    [0.0 <= progress <= 1.0] and rejects anything else. *)
Definition job_response (job : Job) : outcome string JobResponse :=
  if PyFloat.leb PyFloat.zero (progress job)
     && PyFloat.leb (progress job) PyFloat.one
  then Ok {| r_job_id := job_id job;
             r_status := status_value (status job);
             r_job_type := type_value (job_type job);
             r_progress := progress job;
             r_stage := stage job;
             r_created_at := created_at job;
             r_started_at := started_at job;
             r_completed_at := completed_at job;
             r_result := result job;
             r_error := error job |}
  else Raise "validation error for JobResponse: progress".

(** [get_job_status]. *)
Definition get_job_status (queue : option (gmap string file))
    (job_id : string) : outcome HTTPException JobResponse :=
  match queue with
  | None =>
      Raise {| status_code := 500; detail := "Job queue not initialized" |}
  | Some d =>
      match get d job_id with
      | None =>
          Raise {| status_code := 404;
                   detail := "Job not found: " +:+ job_id |}
      | Some job =>
          match job_response job with
          | Ok r => Ok r
          | Raise e => Raise {| status_code := 500; detail := e |}
          end
      end
  end.


End Api.

(* ===================================================================== *)
(** * Properties *)
(* ===================================================================== *)

(** ** Float comparisons used by the clamp *)

Section FloatFacts.
Import PyFloat.

Lemma SFcompare_antisym (x y : float) (c : comparison) :
  SFcompare x y = Some c -> SFcompare y x = Some (CompOpp c).
Proof.
  destruct x as [sx | sx | | sx mx ex], y as [sy | sy | | sy my ey];
    simpl; try discriminate;
    try (intros [= <-]; try destruct sx; try destruct sy; reflexivity).
  intros [= <-]. f_equal.
  destruct sx, sy; try reflexivity;
    rewrite (Z.compare_antisym ex ey);
    destruct (ex ?= ey)%Z; simpl; try reflexivity.
  - rewrite CompOpp_involutive, (Pos.compare_cont_antisym my mx Eq).
    reflexivity.
  - rewrite (Pos.compare_cont_antisym mx my Eq). reflexivity.
Qed.

Lemma ltb_asym (x y : float) : ltb x y = true -> ltb y x = false.
Proof.
  unfold ltb, SFltb. destruct (SFcompare x y) as [[]|] eqn:E; try discriminate.
  intros _. rewrite (SFcompare_antisym _ _ _ E). reflexivity.
Qed.

Lemma ltb_leb (x y : float) : ltb x y = true -> leb x y = true.
Proof. unfold ltb, leb, SFltb, SFleb. destruct (SFcompare x y) as [[]|]; easy. Qed.

Lemma ltb_zero_one (x : float) : ltb x zero = true -> ltb x one = true.
Proof.
  unfold ltb, SFltb, zero, one.
  destruct x as [s | s | | s m e]; try destruct s; cbn [SFcompare];
    try discriminate; reflexivity.
Qed.

Lemma leb_zero_not_lt (x : float) :
  leb zero x = true -> ltb zero x = false -> eqb zero x = true.
Proof.
  unfold leb, ltb, eqb, SFleb, SFltb, SFeqb.
  destruct (SFcompare zero x) as [[]|]; easy.
Qed.

Lemma leb_not_gt (x y : float) : leb x y = true -> ltb y x = false.
Proof.
  unfold leb, ltb, SFleb, SFltb.
  destruct (SFcompare x y) as [c|] eqn:E; [|discriminate].
  rewrite (SFcompare_antisym _ _ _ E). destruct c; simpl; easy.
Qed.

Lemma eqb_refl_not_nan (x : float) : is_nan x = false -> eqb x x = true.
Proof.
  unfold eqb, SFeqb.
  destruct x as [s | s | | s m e]; simpl; try discriminate; intros _.
  - reflexivity.
  - destruct s; reflexivity.
  - destruct s; rewrite Z.compare_refl, Pos.compare_cont_refl; reflexivity.
Qed.

End FloatFacts.

(** ** VRAM admission *)

Section VramFacts.
Import Vram.

(** When the device answers, the status is available exactly when the
    manager is, and its three figures add up. *)
Lemma get_status_answered (m : VRAMManager) (mem_free mem_total : Z) :
  _torch m = true ->
  let st := get_status m (Ok (mem_free, mem_total)) in
  cuda_available st = _cuda_available m /\
  used_mb st + free_mb st = total_mb st.
Proof.
  intros Ht. unfold get_status. rewrite Ht.
  destruct (_cuda_available m);
    cbn [negb orb cuda_available used_mb free_mb total_mb no_cuda_status];
    split; try reflexivity; lia.
Qed.

(** When the device query raises, the status is the zeroed one. *)
Lemma get_status_query_raises (m : VRAMManager) (msg : string) :
  get_status m (Raise msg) = no_cuda_status.
Proof. unfold get_status. destruct (negb _ || negb _); reflexivity. Qed.




(** Without an accelerator any requirement is admitted. *)
Example can_load_cpu_mode :
  can_load (init 0 (Some false)) (Raise "no device") 999999 512 = true.
Proof. reflexivity. Qed.

(** A manager that found CUDA at start-up but whose device query raises
    works from the zeroed figures: the admission is then decided by
    [0 - margin >= required]. *)
Example can_load_query_raises :
  can_load (init 0 (Some true)) (Raise "CUDA error") 100 512 = false.
Proof. reflexivity. Qed.

End VramFacts.

(** ** Job entity *)

Section JobFacts.
Import PyFloat Jobs.

Lemma asdict_inner_id : forall v : pyval, asdict_inner v = v.
Proof.
  fix IH 1. intros [ | b | z | f | s | l | d]; simpl; try reflexivity.
  - f_equal. induction l as [|x l IHl]; simpl.
    + reflexivity.
    + rewrite (IH x), IHl. reflexivity.
  - f_equal. induction d as [|[k x] d IHd]; simpl.
    + reflexivity.
    + rewrite (IH x), IHd. reflexivity.
Qed.

Lemma status_of_value_value (s : JobStatus) :
  status_of_value (status_value s) = Some s.
Proof. destruct s; reflexivity. Qed.

Lemma type_of_value_value (t : JobType) :
  type_of_value (type_value t) = Some t.
Proof. destruct t; reflexivity. Qed.

(** Reading back what [to_dict] produced. *)
Lemma from_dict_inverts_to_dict (j : Job) : from_dict (to_dict j) = Some j.
Proof.
  destruct j as [jid st ty ps cr sa ca rs er pr sg].
  unfold to_dict, asdict.
  rewrite !asdict_inner_id.
  destruct st, ty, sa, ca, rs, er; vm_compute; reflexivity.
Qed.

(** C5. Deserialising the dictionary form of a job gives back the job,
    field for field, whatever its optional fields hold: a job with no
    result, no error and no start or completion time included. *)
Theorem from_dict_to_dict (j : Job) :
  from_dict (to_dict j) = Some j
  /\ (forall new_id now ty ps,
        from_dict (to_dict (create new_id now ty ps))
        = Some (create new_id now ty ps)).
Proof.
  split; [|intros new_id now ty ps]; apply from_dict_inverts_to_dict.
Qed.

End JobFacts.

Section JobLifecycleFacts.
Import PyFloat Jobs.

Lemma ltb_zero_one_true : ltb zero one = true.
Proof. reflexivity. Qed.

Lemma leb_true_not_nan (x y : float) : leb x y = true -> is_nan y = false.
Proof.
  unfold leb, SFleb.
  destruct x as [s | s | | s m e], y as [t | t | | t n f];
    cbn [SFcompare is_nan]; try discriminate; reflexivity.
Qed.

Lemma leb_not_ltb_eqb (x y : float) :
  leb x y = true -> ltb x y = false -> eqb y x = true.
Proof.
  unfold leb, ltb, eqb, SFleb, SFltb, SFeqb.
  destruct (SFcompare x y) as [c|] eqn:E; [|discriminate].
  rewrite (SFcompare_antisym _ _ _ E). destruct c; cbn [CompOpp]; easy.
Qed.

(** The value [update_progress] stores is within [[0, 1]] for every
    float, NaN and the infinities included. *)
Lemma clamp_range (p : float) :
  let r := py_max zero (py_min one p) in
  leb zero r = true /\ leb r one = true.
Proof.
  unfold py_max, py_min.
  destruct (ltb p one) eqn:E1.
  - destruct (ltb zero p) eqn:E2.
    + split; apply ltb_leb; assumption.
    + split; reflexivity.
  - rewrite ltb_zero_one_true. split; reflexivity.
Qed.

Lemma clamp_below (p : float) :
  ltb p zero = true -> py_max zero (py_min one p) = zero.
Proof.
  intros H. unfold py_max, py_min.
  rewrite (ltb_zero_one _ H), (ltb_asym _ _ H). reflexivity.
Qed.

Lemma clamp_above (p : float) :
  ltb one p = true -> py_max zero (py_min one p) = one.
Proof.
  intros H. unfold py_max, py_min.
  rewrite (ltb_asym _ _ H), ltb_zero_one_true. reflexivity.
Qed.

Lemma clamp_inside (p : float) :
  leb zero p = true -> leb p one = true ->
  eqb (py_max zero (py_min one p)) p = true.
Proof.
  intros H0 H1. unfold py_max, py_min.
  destruct (ltb p one) eqn:E1.
  - destruct (ltb zero p) eqn:E2.
    + apply eqb_refl_not_nan, (leb_true_not_nan _ _ H0).
    + apply leb_zero_not_lt; assumption.
  - rewrite ltb_zero_one_true. apply leb_not_ltb_eqb; assumption.
Qed.

Lemma compare_finite_eq (p : float) (m : positive) (e : Z) :
  SFcompare p (S754_finite false m e) = Some Eq -> p = S754_finite false m e.
Proof.
  destruct p as [s | s | | s m' e']; cbn [SFcompare];
    try destruct s; try discriminate.
  destruct (e' ?= e)%Z eqn:Ee; try discriminate.
  intros Hm. apply Z.compare_eq in Ee.
  assert (Hc : Pos.compare m' m = Eq).
  { unfold Pos.compare. destruct (Pos.compare_cont Eq m' m); congruence. }
  apply Pos.compare_eq in Hc. subst. reflexivity.
Qed.

Lemma compare_one_eq (p : float) : SFcompare p one = Some Eq -> p = one.
Proof. apply compare_finite_eq. Qed.

(** A positive value up to one is stored as it is. *)
Lemma clamp_positive_inside (p : float) :
  ltb zero p = true -> leb p one = true -> py_max zero (py_min one p) = p.
Proof.
  intros H0 H1. unfold py_max, py_min.
  destruct (ltb p one) eqn:E1.
  - rewrite H0. reflexivity.
  - rewrite ltb_zero_one_true. symmetry. apply compare_one_eq.
    unfold leb, ltb, SFleb, SFltb in H1, E1.
    destruct (SFcompare p one) as [[]|]; try discriminate; reflexivity.
Qed.

(** NaN compares false with everything and ends up as [1.0]. *)
Example clamp_nan : py_max zero (py_min one S754_nan) = one.
Proof. reflexivity. Qed.

(** C7. [update_progress] replaces the stage label and stores the clamp
    of the value into [[0, 1]]: the stored progress always lies in the
    interval; a value below 0 gives [0.0], a value above 1 gives [1.0],
    a value inside is kept ([-0.0] being stored as [0.0], which [==]
    does not tell apart). In particular -5 gives [0.0] and 5 gives
    [1.0]; an integer argument compares as the float of the same
    value. *)
Theorem update_progress_clamps (j : Job) (p : float) (label : string) :
  let j' := update_progress p label j in
  stage j' = label
  /\ (leb zero (progress j') = true /\ leb (progress j') one = true)
  /\ (ltb p zero = true -> progress j' = zero)
  /\ (ltb one p = true -> progress j' = one)
  /\ (leb zero p = true -> leb p one = true -> eqb (progress j') p = true)
  /\ (ltb zero p = true -> leb p one = true -> progress j' = p)
  /\ progress (update_progress (of_int (-5)) "x" j) = zero
  /\ progress (update_progress (of_int 5) "x" j) = one.
Proof.
  cbn [update_progress stage progress].
  split; [reflexivity|].
  split; [apply clamp_range|].
  split; [apply clamp_below|].
  split; [apply clamp_above|].
  split; [apply clamp_inside|].
  split; [apply clamp_positive_inside|].
  split; reflexivity.
Qed.

(** One half is inside the interval and is kept. *)
Lemma update_progress_clamps_witness :
  eqb (progress (update_progress (fdiv one (of_int 2)) "Halfway"
                   (create "job-1" "t0" FULL_PIPELINE [])))
      (fdiv one (of_int 2)) = true.
Proof.
  apply (proj1 (proj2 (proj2 (proj2 (proj2
           (update_progress_clamps (create "job-1" "t0" FULL_PIPELINE [])
              (fdiv one (of_int 2)) "Halfway")))))).
  - vm_compute. reflexivity.
  - vm_compute. reflexivity.
Defined.

Lemma inv_create (new_id now : string) (ty : JobType) (ps : pydict) :
  result_error_inv (create new_id now ty ps).
Proof. split; [left|intros _; split]; reflexivity. Qed.

Lemma inv_step (o : op) (j : Job) :
  result_error_inv j -> allowed (status j) o = true ->
  result_error_inv (apply_op o j).
Proof.
  intros [_ Hnt] Ha.
  assert (Hs : terminal (status j) = false).
  { destruct o; cbn [allowed] in Ha.
    - apply bool_decide_eq_true in Ha. rewrite Ha. reflexivity.
    - apply negb_true_iff, Ha.
    - apply negb_true_iff, Ha.
    - apply negb_true_iff, Ha.
    - apply negb_true_iff, Ha. }
  destruct (Hnt Hs) as [Hr He].
  destruct o; cbn [apply_op]; split; cbn; rewrite ?Hr, ?He; auto;
    try discriminate.
Qed.

Lemma inv_run (ops : list op) : forall j : Job,
  result_error_inv j -> respects j ops = true ->
  result_error_inv (run_ops ops j).
Proof.
  induction ops as [|o ops IH]; intros j Hj Hr.
  - exact Hj.
  - cbn [respects] in Hr. apply andb_true_iff in Hr as [Ha Hr].
    cbn [run_ops fold_left]. apply IH; [apply inv_step; assumption | exact Hr].
Qed.

Lemma respects_take (ops : list op) : forall (j : Job) (n : nat),
  respects j ops = true -> respects j (take n ops) = true.
Proof.
  induction ops as [|o ops IH]; intros j [|n] Hr; try reflexivity.
  cbn [respects] in Hr. apply andb_true_iff in Hr as [Ha Hr].
  cbn [take respects]. rewrite Ha. apply IH, Hr.
Qed.

(** C9. Along every sequence of lifecycle calls that follows the status
    state machine from a freshly created job, at every point of the
    sequence [result] and [error] are not both set, and both are unset
    as long as the status is not terminal. *)
Theorem result_error_exclusive (new_id now : string) (ty : JobType)
    (ps : pydict) (ops : list op) :
  respects (create new_id now ty ps) ops = true ->
  forall n : nat,
    let j := run_ops (take n ops) (create new_id now ty ps) in
    (result j = None \/ error j = None) /\
    (terminal (status j) = false -> result j = None /\ error j = None).
Proof.
  intros Hr n. apply inv_run.
  - apply inv_create.
  - apply respects_take, Hr.
Qed.

(** A job that is started, reports progress and fails. *)
Lemma result_error_exclusive_witness :
  let ops := [OpStart "t1"; OpUpdateProgress (fdiv one (of_int 2)) "Rendering";
              OpFail "t2" "CUDA out of memory"] in
  let j := run_ops (take 3 ops) (create "job-1" "t0" FULL_PIPELINE []) in
  (result j = None \/ error j = None) /\
  (terminal (status j) = false -> result j = None /\ error j = None).
Proof.
  apply (result_error_exclusive "job-1" "t0" FULL_PIPELINE []
           [OpStart "t1"; OpUpdateProgress (fdiv one (of_int 2)) "Rendering";
            OpFail "t2" "CUDA out of memory"]).
  vm_compute. reflexivity.
Defined.

(** C10. [fail] sets the status to [FAILED], stamps [completed_at] and
    stores the error; the progress reached is left as it was, and so are
    the id, type, parameters, creation and start times and the result. *)
Theorem fail_frame (j : Job) (now err : string) :
  let j' := fail now err j in
  status j' = FAILED
  /\ completed_at j' = Some now
  /\ error j' = Some err
  /\ progress j' = progress j
  /\ job_id j' = job_id j
  /\ job_type j' = job_type j
  /\ params j' = params j
  /\ created_at j' = created_at j
  /\ started_at j' = started_at j
  /\ result j' = result j.
Proof. repeat split. Qed.

(** The test of the repository: progress 0.6 survives a failure. *)
Example fail_keeps_progress (j : Job) (p : float) :
  progress (fail "t2" "CUDA out of memory" (update_progress p "Generating image" j))
  = progress (update_progress p "Generating image" j).
Proof. reflexivity. Qed.

End JobLifecycleFacts.

(** ** Job queue *)

Section QueueFacts.
Import Jobs Queue.

(** A record that is written is read back, under its own id. *)
Lemma get_after_save (d : gmap string file) (job : Job) :
  get (snd (_save_job Written d job)) (job_id job) = Some job.
Proof.
  unfold get. cbn [_save_job snd].
  rewrite lookup_insert_eq. apply from_dict_inverts_to_dict.
Qed.

(** [submit] reports a failed write: the [IOError] reaches the caller
    and no id is returned. *)
Lemma submit_reports_failure (w : write_outcome) (new_id now : string)
    (ty : JobType) (ps : pydict) (d : gmap string file) :
  w <> Written ->
  exists e, fst (submit w new_id now ty ps d) = Raise e.
Proof. intros Hw. destruct w; [congruence | | ]; eexists; reflexivity. Qed.

(** [submit] with a working store: the new job is found, pending, with
    no progress. *)
Lemma submit_then_get (new_id now : string) (ty : JobType) (ps : pydict)
    (d : gmap string file) :
  let '(r, d') := submit Written new_id now ty ps d in
  r = Ok new_id /\ get d' new_id = Some (create new_id now ty ps).
Proof.
  cbn [submit _save_job]. split; [reflexivity|].
  apply (get_after_save d (create new_id now ty ps)).
Qed.

(** [update] reports a failed write by returning [False]. *)
Lemma update_reports_failure (w : write_outcome) (d : gmap string file)
    (job : Job) :
  w <> Written -> fst (update w d job) = false.
Proof. intros Hw. destruct w; [congruence | | ]; reflexivity. Qed.

(** [cancel] answers [True] for a pending job whatever the write does. *)
Lemma cancel_pending_returns_true (w : write_outcome) (now : string)
    (d : gmap string file) (id : string) (j : Job) :
  get d id = Some j -> status j = PENDING ->
  fst (cancel w now d id) = true.
Proof.
  intros Hg Hs. unfold cancel. rewrite Hg, Hs. cbn [bool_decide negb].
  rewrite bool_decide_eq_true_2 by reflexivity. cbn [negb].
  destruct (update w d (Jobs.cancel now j)). reflexivity.
Qed.

(** What [cancel] does when the store can be written. It returns false
    and leaves the directory, hence the stored status, as it was when
    the id is unknown or the stored job is not pending. When the stored
    job is pending it returns true, and once the record is written the
    job stored under the id is the cancelled one: status [CANCELLED],
    [completed_at] set. (The record is written under the id it carries,
    which for every record the queue wrote is the id it is stored
    under.) *)
Theorem cancel_only_pending (w : write_outcome) (now : string)
    (d : gmap string file) (id : string) :
  (get d id = None -> cancel w now d id = (false, d))
  /\ (forall j, get d id = Some j -> status j <> PENDING ->
        cancel w now d id = (false, d))
  /\ (forall j, get d id = Some j -> status j = PENDING ->
        fst (cancel w now d id) = true
        /\ (w = Written -> job_id j = id ->
            exists j', get (snd (cancel w now d id)) id = Some j'
              /\ j' = Jobs.cancel now j
              /\ status j' = CANCELLED
              /\ completed_at j' = Some now)).
Proof.
  split; [|split].
  - intros Hg. unfold cancel. rewrite Hg. reflexivity.
  - intros j Hg Hs. unfold cancel. rewrite Hg.
    rewrite bool_decide_eq_false_2 by exact Hs. reflexivity.
  - intros j Hg Hs. split.
    + apply (cancel_pending_returns_true w now d id j Hg Hs).
    + intros -> Hid. subst id. exists (Jobs.cancel now j).
      split; [|repeat split].
      unfold cancel. rewrite Hg.
      rewrite bool_decide_eq_true_2 by exact Hs. cbn [negb].
      apply (get_after_save d (Jobs.cancel now j)).
Qed.

Lemma get_one_pending : get one_pending "job-1" = Some pending_job.
Proof.
  unfold get, one_pending. rewrite lookup_singleton_eq.
  apply from_dict_inverts_to_dict.
Qed.

Lemma cancel_only_pending_witness :
  exists j', get (snd (cancel Written "2024-01-15T10:31:00Z" one_pending "job-1"))
                 "job-1" = Some j'
    /\ j' = Jobs.cancel "2024-01-15T10:31:00Z" pending_job
    /\ status j' = CANCELLED
    /\ completed_at j' = Some "2024-01-15T10:31:00Z".
Proof.
  apply (proj2 (proj2 (proj2 (cancel_only_pending Written
           "2024-01-15T10:31:00Z" one_pending "job-1"))
           pending_job get_one_pending eq_refl)); reflexivity.
Defined.

(** What [cancel] leaves behind for a pending job, by the outcome of the
    write: the cancelled job, the job as it was, or a file that no
    longer loads. The answer is [True] in all three cases. *)
Lemma cancel_pending_stored (w : write_outcome) (now : string)
    (d : gmap string file) (id : string) (j : Job) :
  get d id = Some j -> status j = PENDING -> job_id j = id ->
  fst (cancel w now d id) = true
  /\ get (snd (cancel w now d id)) id
     = match w with
       | Written => Some (Jobs.cancel now j)
       | OpenFailed => Some j
       | DumpFailed => None
       end.
Proof.
  intros Hg Hs Hid. split.
  - apply (cancel_pending_returns_true w now d id j Hg Hs).
  - unfold cancel. rewrite Hg.
    rewrite bool_decide_eq_true_2 by exact Hs. cbn [negb].
    destruct w; cbn [update _save_job snd].
    + subst id. apply (get_after_save d (Jobs.cancel now j)).
    + exact Hg.
    + unfold get. cbn [Jobs.cancel job_id]. rewrite Hid, lookup_insert_eq.
      reflexivity.
Qed.

(** C4, at a pending job whose record cannot be written. The store
    holds the pending job [job-1]. When [open] raises, [cancel] answers
    [True] although the stored job has not moved: it is read back as it
    was, [PENDING] and with no [completed_at]. When [json.dump] raises,
    [cancel] answers [True] as well and the job can no longer be read.
    In neither case is the stored job [CANCELLED]. *)
Theorem cancel_pending_not_transitioned :
  let now := "2024-01-15T10:31:00Z" in
  get one_pending "job-1" = Some pending_job
  /\ status pending_job = PENDING
  /\ fst (cancel OpenFailed now one_pending "job-1") = true
  /\ get (snd (cancel OpenFailed now one_pending "job-1")) "job-1"
     = Some pending_job
  /\ (status <$> get (snd (cancel OpenFailed now one_pending "job-1")) "job-1")
     = Some PENDING
  /\ (completed_at
       <$> get (snd (cancel OpenFailed now one_pending "job-1")) "job-1")
     = Some None
  /\ fst (cancel DumpFailed now one_pending "job-1") = true
  /\ get (snd (cancel DumpFailed now one_pending "job-1")) "job-1" = None.
Proof.
  intros now.
  pose proof (cancel_pending_stored OpenFailed now one_pending "job-1"
                pending_job get_one_pending eq_refl eq_refl) as [Ho1 Ho2].
  pose proof (cancel_pending_stored DumpFailed now one_pending "job-1"
                pending_job get_one_pending eq_refl eq_refl) as [Hd1 Hd2].
  split; [exact get_one_pending|]. split; [reflexivity|].
  split; [exact Ho1|]. split; [exact Ho2|].
  split; [rewrite Ho2; reflexivity|]. split; [rewrite Ho2; reflexivity|].
  split; [exact Hd1|exact Hd2].
Qed.

(** C8, at the write inside [cancel]. The store holds a pending job and
    the write fails ([open] raises): [cancel] still answers [True], and
    the job found afterwards is still [PENDING]. The failure that
    [update] reported is lost. *)
Theorem cancel_loses_write_failure :
  cancel OpenFailed "2024-01-15T10:31:00Z" one_pending "job-1"
    = (true, one_pending)
  /\ fst (update OpenFailed one_pending
            (Jobs.cancel "2024-01-15T10:31:00Z" pending_job)) = false
  /\ (status <$> get one_pending "job-1") = Some PENDING.
Proof.
  assert (H : cancel OpenFailed "2024-01-15T10:31:00Z" one_pending "job-1"
              = (true, one_pending)).
  { unfold cancel. rewrite get_one_pending. reflexivity. }
  split; [exact H|]. split; [reflexivity|].
  rewrite get_one_pending. reflexivity.
Qed.

(** The same for every directory, id and failing write: the answer is
    [True] and the stored job is not the cancelled one. *)
Lemma cancel_loses_write_failure_general (w : write_outcome) (now : string)
    (d : gmap string file) (id : string) (j : Job) :
  get d id = Some j -> status j = PENDING -> job_id j = id -> w <> Written ->
  fst (cancel w now d id) = true
  /\ get (snd (cancel w now d id)) id <> Some (Jobs.cancel now j).
Proof.
  intros Hg Hs Hid Hw. split.
  - apply (cancel_pending_returns_true w now d id j Hg Hs).
  - unfold cancel. rewrite Hg.
    rewrite bool_decide_eq_true_2 by exact Hs. cbn [negb].
    destruct w; [congruence | | ]; cbn [update _save_job snd].
    + rewrite Hg. intros [= E]. apply (f_equal status) in E.
      rewrite Hs in E. discriminate.
    + unfold get. cbn [Jobs.cancel job_id]. rewrite Hid, lookup_insert_eq.
      discriminate.
Qed.

End QueueFacts.

(** ** Pipeline coordinator *)

Section CoordinatorFacts.
Import PyFloat Coordinator.

Variable w : World.
Variable temp_dir : path.

(** One statement of the [try] block at a time. *)
Ltac unfold_stmt :=
  unfold bind, invoke, raise_if, append_stage, record_file, log, ret, raise;
  cbn [stages_so_far files_so_far trace fst snd].

Ltac step :=
  match goal with
  | |- context [match ?o with Ok _ => _ | Raise _ => _ end] =>
      destruct o eqn:?
  | |- context [if negb ?b then _ else _] => destruct b eqn:?; cbn [negb]
  | |- context [if gt_int ?d ?m then _ else _] => destruct (gt_int d m) eqn:?
  end.

(** What the five stages leave behind: an exception after fewer than
    five recorded stages, or all five stages with the audio and lip-sync
    artifacts that the adapters returned recorded under their
    categories. *)
Lemma run_stages_shape (text voice_profile_id : string)
    (avatar_image output : path) (config : PipelineConfig) :
  match run_stages w temp_dir text voice_profile_id avatar_image output
                   config init_locals with
  | (Ok _, s) =>
      stages_so_far s = all_stages /\
      exists profile sr lr,
        load_profile w voice_profile_id = Ok profile /\
        synthesize w text profile
          (temp_file temp_dir "speech" (clock w CSynthesize) ".wav") = Ok sr /\
        generate w avatar_image (audio_path sr)
          (temp_file temp_dir "lipsync" (clock w CGenerate) ".mp4")
          (lipsync_config_of config) = Ok lr /\
        files_so_far s
          = Some [("audio", audio_path sr); ("lipsync", video_path lr)]
  | (Raise e, s) =>
      stages_so_far s = take (completed_before e) all_stages /\
      (completed_before e < 5)%nat
  end.
Proof.
  unfold run_stages, init_locals. unfold_stmt.
  repeat (step; unfold_stmt);
    cbn [completed_before take all_stages app files_set String.eqb
         Ascii.eqb Bool.eqb];
    first [ solve [split; [reflexivity | lia]]
          | split; [reflexivity | do 3 eexists; repeat split; eauto] ].
Qed.

(** The [try] block is the five stages followed by stage 6. *)
Lemma try_block_unfold (text voice_profile_id : string)
    (avatar_image output : path) (config : PipelineConfig) :
  try_block w temp_dir text voice_profile_id avatar_image output config
            init_locals
  = match run_stages w temp_dir text voice_profile_id avatar_image output
                     config init_locals with
    | (Ok enc, s) =>
        if cleanup_intermediates config
        then (Ok enc,
              {| stages_so_far := stages_so_far s;
                 files_so_far := None;
                 trace := (trace s ++ _cleanup_files w
                             (default [] (files_so_far s)))%list |})
        else (Ok enc, s)
    | (Raise e, s) => (Raise e, s)
    end.
Proof.
  unfold try_block, bind, stage6, cleanup, forget_files, ret.
  destruct (run_stages _ _ _ _ _ _ _ _) as [[enc | e] s]; [|reflexivity].
  destruct (cleanup_intermediates config); reflexivity.
Qed.

(** Stage 6 and the construction of the result do not touch the list
    of completed stages. *)
Lemma execute_stages (text voice_profile_id : string)
    (avatar_image output : path) (cfg : option PipelineConfig) :
  let config := default default_config cfg in
  let r := execute w temp_dir text voice_profile_id avatar_image output cfg in
  match run_stages w temp_dir text voice_profile_id avatar_image output
                   config init_locals with
  | (Ok _, s) =>
      success r = true /\ error r = None /\
      stages_completed r = stages_so_far s /\
      intermediate_files r =
        (if cleanup_intermediates config then None else files_so_far s)
  | (Raise e, s) =>
      success r = false /\ error r = Some e /\
      stages_completed r = stages_so_far s /\
      intermediate_files r = None
  end.
Proof.
  intros config r. subst r. unfold execute, execute_traced.
  fold config. rewrite try_block_unfold.
  destruct (run_stages _ _ _ _ _ _ _ _) as [[enc | e] s].
  - destruct (cleanup_intermediates config); cbn; repeat split.
  - cbn. repeat split.
Qed.

(** C2. A successful run reports exactly the five stages, in order. A
    failed run reports a strict prefix of them: the stages recorded
    before the place where the exception was raised. *)
Theorem stages_completed_prefix (text voice_profile_id : string)
    (avatar_image output : path) (cfg : option PipelineConfig) :
  let r := execute w temp_dir text voice_profile_id avatar_image output cfg in
  (success r = true ->
     stages_completed r
       = [ "load_profile"; "synthesize_speech"; "validate_avatar";
           "generate_lipsync"; "encode_video" ])
  /\ (success r = false ->
      exists e,
        error r = Some e
        /\ stages_completed r = take (completed_before e) all_stages
        /\ (completed_before e < length all_stages)%nat
        /\ stages_completed r `prefix_of` all_stages
        /\ stages_completed r <> all_stages).
Proof.
  intros r.
  pose proof (execute_stages text voice_profile_id avatar_image output cfg) as He.
  pose proof (run_stages_shape text voice_profile_id avatar_image output
                (default default_config cfg)) as Hs.
  cbv zeta in He. fold r in He.
  destruct (run_stages _ _ _ _ _ _ _ _) as [[enc | e] s].
  - destruct He as (Hok & _ & Hst & _), Hs as [Hall _]. split.
    + intros _. rewrite Hst. exact Hall.
    + rewrite Hok. discriminate.
  - destruct He as (Hok & Herr & Hst & _), Hs as [Hpre Hlt]. split.
    + rewrite Hok. discriminate.
    + intros _. exists e. rewrite Hst, Hpre.
      repeat split; try assumption.
      * exists (drop (completed_before e) all_stages).
        symmetry. apply take_drop.
      * intros Heq. apply (f_equal length) in Heq.
        rewrite length_take in Heq. cbn [all_stages length] in *. lia.
Qed.

Lemma cleanup_only_unlinks (files : list (string * option path)) (c : call) :
  Called c ∉ _cleanup_files w files.
Proof.
  induction files as [|[k [p|]] files IH]; cbn [_cleanup_files].
  - apply not_elem_of_nil.
  - destruct (file_exists w p); [|exact IH].
    destruct (unlink w p); [|exact IH].
    intros [H | H]%elem_of_cons; [discriminate | exact (IH H)].
  - exact IH.
Qed.

(** C6. When speech synthesis returns audio longer than the configured
    maximum (120 seconds unless the caller says otherwise), the run
    fails with the duration-limit error, reports exactly the first two
    stages, and makes no call of a later stage: the only calls are the
    profile load and the synthesis. *)
Theorem duration_limit_enforced (text voice_profile_id : string)
    (avatar_image output : path) (cfg : option PipelineConfig)
    (profile : VoiceProfile) (sr : SynthesisResult) :
  let config := default default_config cfg in
  load_profile w voice_profile_id = Ok profile ->
  synthesize w text profile
    (temp_file temp_dir "speech" (clock w CSynthesize) ".wav") = Ok sr ->
  synth_success sr = true ->
  gt_int (synth_duration_seconds sr) (max_video_length_seconds config) = true ->
  let run := execute_traced w temp_dir text voice_profile_id avatar_image
                            output cfg in
  success (fst run) = false
  /\ error (fst run) = Some (AudioTooLong (synth_duration_seconds sr)
                                          (max_video_length_seconds config))
  /\ stages_completed (fst run) = ["load_profile"; "synthesize_speech"]
  /\ (forall c, later_stage_call c = true -> Called c ∉ snd run)
  /\ (forall c, Called c ∈ snd run -> c = CLoadProfile \/ c = CSynthesize)
  /\ max_video_length_seconds default_config = 120.
Proof.
  intros config Hp Hs Hok Hlong run.
  assert (Hrun : exists deleted,
             run = ({| success := false; job_id := None; output_path := None;
                       duration_seconds := zero;
                       stages_completed :=
                         ["load_profile"; "synthesize_speech"];
                       error := Some (AudioTooLong (synth_duration_seconds sr)
                                        (max_video_length_seconds config));
                       processing_time_seconds := elapsed w;
                       intermediate_files := None |},
                    ([Called CLoadProfile; Called CSynthesize] ++ deleted)%list)
             /\ forall c, Called c ∉ deleted).
  { subst run. unfold execute_traced. fold config. rewrite try_block_unfold.
    unfold run_stages, init_locals. unfold_stmt.
    rewrite Hp. unfold_stmt. rewrite Hs. unfold_stmt.
    rewrite Hok. cbn [negb]. unfold_stmt. rewrite Hlong.
    cbn [app files_set truthy andb default].
    eexists. split; [reflexivity|].
    intros c. destruct (cleanup_intermediates config).
    - apply cleanup_only_unlinks.
    - apply not_elem_of_nil. }
  destruct Hrun as (deleted & -> & Hdel). cbn [fst snd success error
    stages_completed].
  repeat split.
  - intros c Hc [H | [H | H]%elem_of_cons]%elem_of_cons.
    + injection H as ->. discriminate.
    + injection H as ->. discriminate.
    + exact (Hdel c H).
  - intros c [H | [H | H]%elem_of_cons]%elem_of_cons.
    + injection H as ->. left. reflexivity.
    + injection H as ->. right. reflexivity.
    + destruct (Hdel c H).
Qed.

End CoordinatorFacts.

(** *** Concrete runs *)

Section CoordinatorRuns.
Import PyFloat Coordinator.

(** Five seconds of audio under the default configuration: all five
    stages; fifteen seconds under a ten second limit: two. *)
Lemma stages_completed_prefix_witness :
  stages_completed
    (execute (demo_world 5) "/storage/temp" "Hello" "vp-1" "avatar.png"
             "out.mp4" None)
    = all_stages
  /\ exists e,
      error (execute (demo_world 15) "/storage/temp" "Hello" "vp-1"
                     "avatar.png" "out.mp4" (Some (short_config true)))
        = Some e
      /\ stages_completed
           (execute (demo_world 15) "/storage/temp" "Hello" "vp-1"
                    "avatar.png" "out.mp4" (Some (short_config true)))
         = take (completed_before e) all_stages
      /\ (completed_before e < length all_stages)%nat
      /\ stages_completed
           (execute (demo_world 15) "/storage/temp" "Hello" "vp-1"
                    "avatar.png" "out.mp4" (Some (short_config true)))
         `prefix_of` all_stages
      /\ stages_completed
           (execute (demo_world 15) "/storage/temp" "Hello" "vp-1"
                    "avatar.png" "out.mp4" (Some (short_config true)))
         <> all_stages.
Proof.
  split.
  - apply (proj1 (stages_completed_prefix (demo_world 5) "/storage/temp"
             "Hello" "vp-1" "avatar.png" "out.mp4" None)).
    vm_compute. reflexivity.
  - apply (proj2 (stages_completed_prefix (demo_world 15) "/storage/temp"
             "Hello" "vp-1" "avatar.png" "out.mp4"
             (Some (short_config true)))).
    vm_compute. reflexivity.
Defined.

(** The scenario of the specification: maximum 10 s, 15 s produced. *)
Lemma duration_limit_enforced_witness :
  stages_completed
    (fst (execute_traced (demo_world 15) "/storage/temp" "Hello" "vp-1"
            "avatar.png" "out.mp4" (Some (short_config true))))
  = ["load_profile"; "synthesize_speech"].
Proof.
  apply (proj1 (proj2 (proj2
    (duration_limit_enforced (demo_world 15) "/storage/temp" "Hello" "vp-1"
       "avatar.png" "out.mp4" (Some (short_config true))
       {| profile_name := "Narrator"; profile_language := "en" |}
       {| synth_success := true;
          audio_path := Some (temp_file "/storage/temp" "speech" 1700000000 ".wav");
          synth_duration_seconds := of_int 15;
          synth_error := None |}
       eq_refl eq_refl eq_refl eq_refl)))).
Defined.

(** The same run under the default limit of 120 s, with 121 s of audio. *)
Example duration_limit_default :
  let r := execute (demo_world 121) "/storage/temp" "Hello" "vp-1"
                   "avatar.png" "out.mp4" None in
  success r = false /\
  error r = Some (AudioTooLong (of_int 121) 120) /\
  stages_completed r = ["load_profile"; "synthesize_speech"].
Proof. vm_compute. repeat split. Qed.

(** C3, as the specification words it, fails: the run below records the
    audio artifact, exceeds the duration limit and fails; cleanup was
    requested, the artifact is deleted and the result carries no map. *)
Lemma failed_run_drops_intermediates :
  ~ keeps_recorded_intermediates (demo_world 15) "/storage/temp" "Hello"
      "vp-1" "avatar.png" "out.mp4" (Some (short_config true)).
Proof.
  unfold keeps_recorded_intermediates. intros H.
  destruct H as (m & Hm & _).
  - left. vm_compute. reflexivity.
  - vm_compute in Hm. discriminate Hm.
Qed.

(** The events of that run: two calls, then the deletion. *)
Example failed_run_events :
  snd (execute_traced (demo_world 15) "/storage/temp" "Hello" "vp-1"
         "avatar.png" "out.mp4" (Some (short_config true)))
  = [ Called CLoadProfile; Called CSynthesize;
      Unlinked "/storage/temp/speech_1700000000.wav" ].
Proof. vm_compute. reflexivity. Qed.

(** Without cleanup the same run deletes nothing, and its result has no
    map either. *)
Example failed_run_without_cleanup :
  let run := execute_traced (demo_world 15) "/storage/temp" "Hello" "vp-1"
               "avatar.png" "out.mp4" (Some (short_config false)) in
  snd run = [ Called CLoadProfile; Called CSynthesize ] /\
  intermediate_files (fst run) = None.
Proof. vm_compute. split; reflexivity. Qed.

(** What that run recorded before it failed. *)
Example failed_run_recorded :
  files_so_far
    (snd (run_stages (demo_world 15) "/storage/temp" "Hello" "vp-1"
            "avatar.png" "out.mp4" (short_config false) init_locals))
  = Some [("audio", Some "/storage/temp/speech_1700000000.wav")].
Proof. vm_compute. reflexivity. Qed.

End CoordinatorRuns.

(* ===================================================================== *)
(** * Further properties *)
(* ===================================================================== *)

(** ** VRAM manager *)

Section VramMore.
Import PyFloat Vram.

(** X1. Whatever the device does, the figures of [get_status] add up
    ([used_mb + free_mb = total_mb]); a status that is not available has
    all figures zero; and the status is available exactly when the
    manager found CUDA and the device query answered. *)
Theorem get_status_figures (m : VRAMManager) (q : outcome string (Z * Z)) :
  let st := get_status m q in
  used_mb st + free_mb st = total_mb st
  /\ (cuda_available st = false ->
      total_mb st = 0 /\ used_mb st = 0 /\ free_mb st = 0
      /\ utilization_percent st = zero)
  /\ (cuda_available st = true <->
      _cuda_available m = true /\ _torch m = true
      /\ exists mem_free mem_total, q = Ok (mem_free, mem_total)).
Proof.
  unfold get_status.
  destruct (_cuda_available m), (_torch m), q as [[mem_free mem_total]|msg];
    cbn [negb orb cuda_available used_mb free_mb total_mb
         utilization_percent no_cuda_status];
    (split; [lia|]); (split; [try discriminate; auto|]);
    split; try discriminate; try (intros (? & ? & ? & ? & ?); discriminate);
    eauto.
Qed.

(** X2. Admission is monotone: what is admitted stays admitted for a
    smaller requirement and a smaller margin. *)
Theorem can_load_monotone (m : VRAMManager) (q : outcome string (Z * Z))
    (required required' margin margin' : Z) :
  can_load m q required margin = true ->
  required' <= required -> margin' <= margin ->
  can_load m q required' margin' = true.
Proof.
  unfold can_load. destruct (negb (_cuda_available m)); [reflexivity|].
  intros H Hr Hm. apply Z.leb_le in H. apply Z.leb_le. lia.
Qed.

Lemma can_load_monotone_witness :
  can_load (init 0 (Some true)) (Ok (8192 * 1048576, 10240 * 1048576))
           3072 256 = true.
Proof.
  apply (can_load_monotone (init 0 (Some true))
           (Ok (8192 * 1048576, 10240 * 1048576)) 4096 3072 512 256).
  - vm_compute. reflexivity.
  - lia.
  - lia.
Defined.

(** X3. A manager that found CUDA but whose device query raises decides
    on zero free memory: it admits a requirement only if it is at most
    minus the margin, so with a margin of zero or more every positive
    requirement is refused. *)
Theorem can_load_query_error (m : VRAMManager) (msg : string)
    (required margin : Z) :
  _cuda_available m = true ->
  (can_load m (Raise msg) required margin = true <-> required <= - margin)
  /\ (0 <= margin -> 0 < required ->
      can_load m (Raise msg) required margin = false).
Proof.
  intros Hc. unfold can_load. rewrite Hc, get_status_query_raises.
  cbn [negb free_mb no_cuda_status]. split.
  - rewrite Z.leb_le. lia.
  - intros Hm Hr. apply Z.leb_gt. lia.
Qed.

Lemma can_load_query_error_witness :
  can_load (init 0 (Some true)) (Raise "CUDA error") 3072 512 = false.
Proof.
  apply (proj2 (can_load_query_error (init 0 (Some true)) "CUDA error"
                  3072 512 eq_refl)); lia.
Defined.

(** X4. [force_cleanup] makes no call at all without CUDA. With CUDA
    its calls are a prefix of: memory query, garbage collection, cache
    release, synchronisation of the manager's device, memory query; the
    first of them that raises is the last one made. When all succeed it
    reports the difference of the free memory after and before. *)
Theorem force_cleanup_calls (m : VRAMManager) (dv : device) :
  let calls := fst (force_cleanup m dv) in
  let freed := snd (force_cleanup m dv) in
  (_cuda_available m = false -> calls = [] /\ freed = None)
  /\ calls `prefix_of` cleanup_calls (device_id m)
  /\ (Synchronize (device_id m) ∈ calls ->
      gc_collect dv = Ok tt /\ empty_cache dv = Ok tt)
  /\ (_cuda_available m = true -> _torch m = true ->
      gc_collect dv = Ok tt -> empty_cache dv = Ok tt ->
      synchronize dv = Ok tt ->
      calls = cleanup_calls (device_id m)
      /\ freed = Some (free_mb (get_status m (mem_info_after dv))
                       - free_mb (get_status m (mem_info_before dv)))).
Proof.
  unfold force_cleanup, cleanup_calls.
  assert (Hnil : forall c : device_call, c ∈ @nil device_call -> False)
    by (intros c H; inversion H).
  destruct (_cuda_available m), (_torch m); cbn [negb orb fst snd];
    try (split; [intros _; split; reflexivity|];
         split; [apply prefix_nil|];
         split; [intros H; destruct (Hnil _ H)|];
         intros; discriminate).
  destruct (gc_collect dv) as [[]|e1], (empty_cache dv) as [[]|e2],
           (synchronize dv) as [[]|e3]; cbn [fst snd];
    (split; [discriminate|]);
    (split; [eexists; reflexivity|]);
    (split;
     [ try (intros _; split; reflexivity);
       intros H; exfalso;
       repeat (apply elem_of_cons in H as [H|H]; [discriminate|]);
       destruct (Hnil _ H)
     | try (intros; discriminate); intros; split; reflexivity ]).
Qed.

(** A cleanup on device 1 that frees two gigabytes. *)
Lemma force_cleanup_calls_witness :
  let dv := {| mem_info_before := Ok (6144 * 1048576, 10240 * 1048576);
               gc_collect := Ok tt; empty_cache := Ok tt;
               synchronize := Ok tt;
               mem_info_after := Ok (8192 * 1048576, 10240 * 1048576) |} in
  fst (force_cleanup (init 1 (Some true)) dv) = cleanup_calls 1
  /\ snd (force_cleanup (init 1 (Some true)) dv)
     = Some (free_mb (get_status (init 1 (Some true)) (mem_info_after dv))
             - free_mb (get_status (init 1 (Some true)) (mem_info_before dv))).
Proof.
  intros dv.
  apply (proj2 (proj2 (proj2 (force_cleanup_calls (init 1 (Some true)) dv))));
    reflexivity.
Defined.

Example force_cleanup_frees :
  snd (force_cleanup (init 1 (Some true))
         {| mem_info_before := Ok (6144 * 1048576, 10240 * 1048576);
            gc_collect := Ok tt; empty_cache := Ok tt; synchronize := Ok tt;
            mem_info_after := Ok (8192 * 1048576, 10240 * 1048576) |})
  = Some 2048.
Proof. vm_compute. reflexivity. Qed.

End VramMore.

(** ** Job entity *)

Section JobMore.
Import PyFloat Jobs.

Lemma one_in_range : leb zero one = true /\ leb one one = true.
Proof. split; reflexivity. Qed.

Lemma progress_step (o : op) (j : Job) :
  progress_in_range j -> progress_in_range (apply_op o j).
Proof.
  intros Hj. destruct o; unfold progress_in_range;
    cbn [apply_op start complete fail cancel update_progress progress].
  - split; reflexivity.
  - exact one_in_range.
  - exact Hj.
  - exact Hj.
  - apply clamp_range.
Qed.

Lemma progress_run (ops : list op) : forall j : Job,
  progress_in_range j -> progress_in_range (run_ops ops j).
Proof.
  induction ops as [|o ops IH]; intros j Hj; [exact Hj|].
  cbn [run_ops fold_left]. apply IH, progress_step, Hj.
Qed.

(** X5. Whatever lifecycle calls are made on a created job, in any
    order and with any arguments, its progress stays within [[0, 1]]. *)
Theorem progress_always_in_range (new_id now : string) (ty : JobType)
    (ps : pydict) (ops : list op) :
  let j := run_ops ops (create new_id now ty ps) in
  leb zero (progress j) = true /\ leb (progress j) one = true.
Proof. apply progress_run. split; reflexivity. Qed.

Lemma coherent_create (new_id now : string) (ty : JobType) (ps : pydict) :
  coherent (create new_id now ty ps).
Proof.
  unfold coherent. cbn [create status started_at completed_at result error
                        progress terminal].
  repeat split; intros; try discriminate; congruence.
Qed.

Lemma coherent_step (o : op) (j : Job) :
  coherent j -> allowed (status j) o = true -> coherent (apply_op o j).
Proof.
  intros (Hp & Hr & Ht & Hc & Hf & Hone) Ha.
  assert (Hs : terminal (status j) = false).
  { destruct o; cbn [allowed] in Ha;
      try (apply negb_true_iff, Ha).
    apply bool_decide_eq_true in Ha. rewrite Ha. reflexivity. }
  assert (Hca : completed_at j = None).
  { destruct (completed_at j) eqn:E; [|reflexivity].
    assert (terminal (status j) = true) by (apply Ht; discriminate).
    congruence. }
  assert (Hres : result j = None).
  { destruct (result j) eqn:E; [|reflexivity].
    assert (status j = COMPLETED) as Hst by (apply Hc; discriminate).
    rewrite Hst in Hs. discriminate. }
  assert (Herr : error j = None).
  { destruct (error j) eqn:E; [|reflexivity].
    assert (status j = FAILED) as Hst by (apply Hf; discriminate).
    rewrite Hst in Hs. discriminate. }
  destruct o; unfold coherent;
    cbn [apply_op start complete fail cancel update_progress status
         started_at completed_at result error progress terminal];
    rewrite ?Hca, ?Hres, ?Herr;
    repeat split; intros; try discriminate; try congruence; auto;
    exfalso;
    match goal with H : status j = _ |- _ => rewrite H in Hs end;
    discriminate.
Qed.

Lemma coherent_run (ops : list op) : forall j : Job,
  coherent j -> respects j ops = true -> coherent (run_ops ops j).
Proof.
  induction ops as [|o ops IH]; intros j Hj Hr; [exact Hj|].
  cbn [respects] in Hr. apply andb_true_iff in Hr as [Ha Hr].
  cbn [run_ops fold_left]. apply IH; [apply coherent_step; assumption|exact Hr].
Qed.

(** X6. Along every sequence of lifecycle calls that follows the state
    machine, the fields of the job go with its status: a pending job
    has no start time and a running one has; the completion time is set
    exactly when the status is terminal, the result exactly when it is
    [COMPLETED], the error exactly when it is [FAILED]; and a completed
    job has progress [1.0]. *)
Theorem fields_follow_status (new_id now : string) (ty : JobType)
    (ps : pydict) (ops : list op) :
  respects (create new_id now ty ps) ops = true ->
  let j := run_ops ops (create new_id now ty ps) in
  (status j = PENDING -> started_at j = None)
  /\ (status j = RUNNING -> started_at j <> None)
  /\ (terminal (status j) = true <-> completed_at j <> None)
  /\ (status j = COMPLETED <-> result j <> None)
  /\ (status j = FAILED <-> error j <> None)
  /\ (status j = COMPLETED -> progress j = one).
Proof. intros Hr. apply coherent_run; [apply coherent_create|exact Hr]. Qed.

Lemma fields_follow_status_witness :
  let j := run_ops [OpStart "t1"; OpUpdateProgress (fdiv one (of_int 2)) "Rendering";
                    OpComplete "t2" [("output_path", PStr "out.mp4")]]
                   (create "job-1" "t0" FULL_PIPELINE []) in
  (status j = PENDING -> started_at j = None)
  /\ (status j = RUNNING -> started_at j <> None)
  /\ (terminal (status j) = true <-> completed_at j <> None)
  /\ (status j = COMPLETED <-> result j <> None)
  /\ (status j = FAILED <-> error j <> None)
  /\ (status j = COMPLETED -> progress j = one).
Proof.
  apply (fields_follow_status "job-1" "t0" FULL_PIPELINE []
           [OpStart "t1"; OpUpdateProgress (fdiv one (of_int 2)) "Rendering";
            OpComplete "t2" [("output_path", PStr "out.mp4")]]).
  vm_compute. reflexivity.
Defined.

End JobMore.

(** ** Job serialisation and ids *)

Section JobDictMore.
Import PyFloat Jobs.

Lemma dict_keys_set (k k' : string) (v : pyval) (d : pydict) :
  In k (dict_keys d) -> In k (dict_keys (dict_set k' v d)).
Proof.
  induction d as [|[k0 v0] d IH]; cbn [dict_keys dict_set map fst In].
  - intros [].
  - destruct (String.eqb k0 k') eqn:E; cbn [map fst In].
    + apply String.eqb_eq in E. subst. auto.
    + intros [H|H]; [left; exact H | right; apply IH, H].
Qed.

Lemma dict_get_set_ne (k k' : string) (v : pyval) (d : pydict) :
  k <> k' -> dict_get k (dict_set k' v d) = dict_get k d.
Proof.
  intros Hne. induction d as [|[k0 v0] d IH]; cbn [dict_get dict_set].
  - destruct (String.eqb k' k) eqn:E; [|reflexivity].
    apply String.eqb_eq in E. congruence.
  - destruct (String.eqb k0 k') eqn:E; cbn [dict_get].
    + apply String.eqb_eq in E. subst k0.
      destruct (String.eqb k' k) eqn:E'; [|reflexivity].
      apply String.eqb_eq in E'. congruence.
    + rewrite IH. reflexivity.
Qed.

Lemma field_set_ne {A} (k k' : string) (f : pyval -> option A)
    (v : pyval) (d : pydict) :
  k <> k' -> field k f (dict_set k' v d) = field k f d.
Proof. intros H. unfold field. rewrite dict_get_set_ne by exact H. reflexivity. Qed.

Lemma status_of_value_iff (s : string) (st : JobStatus) :
  status_of_value s = Some st <-> status_value st = s.
Proof.
  split.
  - intros H. apply find_some in H as [_ H]. apply String.eqb_eq, H.
  - intros <-. apply status_of_value_value.
Qed.

Lemma type_of_value_iff (s : string) (ty : JobType) :
  type_of_value s = Some ty <-> type_value ty = s.
Proof.
  split.
  - intros H. apply find_some in H as [_ H]. apply String.eqb_eq, H.
  - intros <-. apply type_of_value_value.
Qed.

Lemma status_of_value_unknown (s : string) :
  (forall st, status_value st <> s) -> status_of_value s = None.
Proof.
  intros Hno. destruct (status_of_value s) as [st|] eqn:E; [|reflexivity].
  destruct (Hno st). apply status_of_value_iff, E.
Qed.

Lemma type_of_value_unknown (s : string) :
  (forall ty, type_value ty <> s) -> type_of_value s = None.
Proof.
  intros Hno. destruct (type_of_value s) as [ty|] eqn:E; [|reflexivity].
  destruct (Hno ty). apply type_of_value_iff, E.
Qed.

(** X7. Enum lookup by value inverts [.value], both ways: a string
    parses to a status (a job type) exactly when it is that member's
    value; any other string is rejected. *)
Theorem enum_of_value_iff (s : string) :
  (forall st, status_of_value s = Some st <-> status_value st = s)
  /\ (forall ty, type_of_value s = Some ty <-> type_value ty = s)
  /\ ((forall st, status_value st <> s) -> status_of_value s = None)
  /\ ((forall ty, type_value ty <> s) -> type_of_value s = None).
Proof.
  split; [exact (status_of_value_iff s)|].
  split; [exact (type_of_value_iff s)|].
  split; [exact (status_of_value_unknown s)|exact (type_of_value_unknown s)].
Qed.

Lemma dict_keys_set_inv (k k' : string) (v : pyval) (d : pydict) :
  In k (dict_keys (dict_set k' v d)) -> k = k' \/ In k (dict_keys d).
Proof.
  induction d as [|[k0 v0] d IH]; cbn [dict_keys dict_set map fst In].
  - intros [H|[]]. left. congruence.
  - destruct (String.eqb k0 k') eqn:E; cbn [map fst In].
    + apply String.eqb_eq in E. subst k0. intros [H|H]; auto.
    + intros [H|H]; [auto|]. destruct (IH H); auto.
Qed.

Lemma kwarg_set_ne {A} (k k' : string) (f : pyval -> option A) (dflt : A)
    (v : pyval) (d : pydict) :
  k <> k' -> kwarg k f dflt (dict_set k' v d) = kwarg k f dflt d.
Proof. intros H. unfold kwarg. rewrite dict_get_set_ne by exact H. reflexivity. Qed.

(** X8. A dictionary that holds the five required keys and none of the
    six optional ones, in whatever order, deserialises to a job with
    the dataclass defaults: no start or completion time, no result, no
    error, progress [0.0] and stage ["Queued"]. *)
Theorem from_dict_defaults (data : pydict) (jid cr : string)
    (st : JobStatus) (ty : JobType) (ps : pydict) :
  dict_get "job_id" data = Some (PStr jid) ->
  dict_get "status" data = Some (PStr (status_value st)) ->
  dict_get "job_type" data = Some (PStr (type_value ty)) ->
  dict_get "params" data = Some (PDict ps) ->
  dict_get "created_at" data = Some (PStr cr) ->
  (forall k, In k (dict_keys data) ->
             In k ["job_id"; "status"; "job_type"; "params"; "created_at"]) ->
  from_dict data
  = Some {| job_id := jid; status := st; job_type := ty; params := ps;
            created_at := cr; started_at := None; completed_at := None;
            result := None; error := None; progress := zero;
            stage := "Queued" |}.
Proof.
  intros Hid Hst Hty Hps Hcr Hkeys.
  assert (Hopt : forall k,
            In k ["started_at"; "completed_at"; "result"; "error";
                  "progress"; "stage"] -> dict_get k data = None).
  { intros k Hk. destruct (dict_get k data) as [v|] eqn:E; [|reflexivity].
    exfalso.
    assert (Hin : In k (dict_keys data)).
    { clear -E. induction data as [|[k0 v0] d IH]; [discriminate|].
      cbn [dict_get] in E. cbn [dict_keys map fst In].
      destruct (String.eqb k0 k) eqn:Ek.
      - left. apply String.eqb_eq, Ek.
      - right. apply IH, E. }
    specialize (Hkeys k Hin). cbn [In] in Hk, Hkeys.
    intuition (subst; discriminate). }
  assert (Fst : field "status" as_str data = Some (status_value st))
    by (unfold field; rewrite Hst; reflexivity).
  assert (Fty : field "job_type" as_str data = Some (type_value ty))
    by (unfold field; rewrite Hty; reflexivity).
  assert (Fid : field "job_id" as_str data = Some jid)
    by (unfold field; rewrite Hid; reflexivity).
  assert (Fps : field "params" as_dict data = Some ps)
    by (unfold field; rewrite Hps; reflexivity).
  assert (Fcr : field "created_at" as_str data = Some cr)
    by (unfold field; rewrite Hcr; reflexivity).
  assert (Kw : forall A (f : pyval -> option A) (dflt : A) k,
            In k ["started_at"; "completed_at"; "result"; "error";
                  "progress"; "stage"] ->
            kwarg k f dflt data = Some dflt).
  { intros A f dflt k Hk. unfold kwarg. rewrite (Hopt k Hk). reflexivity. }
  unfold from_dict.
  rewrite Fst. cbn [mbind option_bind].
  rewrite status_of_value_value. cbn [mbind option_bind].
  rewrite Fty. cbn [mbind option_bind].
  rewrite type_of_value_value. cbn [mbind option_bind].
  match goal with
  | |- context [forallb ?f ?l] => assert (Hall : forallb f l = true)
  end.
  { apply forallb_forall. intros k Hk.
    apply existsb_exists. exists k. split; [|apply String.eqb_refl].
    apply dict_keys_set_inv in Hk as [->|Hk]; [cbn; tauto|].
    apply dict_keys_set_inv in Hk as [->|Hk]; [cbn; tauto|].
    specialize (Hkeys k Hk). cbn [In field_names] in *. tauto. }
  rewrite Hall.
  rewrite !field_set_ne by discriminate.
  rewrite !kwarg_set_ne by discriminate.
  rewrite Fid, Fps, Fcr.
  rewrite !Kw by (cbn [In]; tauto).
  reflexivity.
Qed.

Lemma from_dict_defaults_witness :
  from_dict [ ("created_at", PStr "t0"); ("params", PDict []);
              ("job_type", PStr "voice_clone"); ("status", PStr "pending");
              ("job_id", PStr "job-1") ]
  = Some {| job_id := "job-1"; status := PENDING; job_type := VOICE_CLONE;
            params := []; created_at := "t0"; started_at := None;
            completed_at := None; result := None; error := None;
            progress := zero; stage := "Queued" |}.
Proof.
  apply (from_dict_defaults _ "job-1" "t0" PENDING VOICE_CLONE []);
    try reflexivity.
  intros k. vm_compute. tauto.
Defined.

Lemma from_dict_needs (data : pydict) (k : string) :
  In k ["job_id"; "status"; "job_type"; "params"; "created_at"] ->
  dict_get k data = None -> from_dict data = None.
Proof.
  intros Hk Hmiss. unfold from_dict.
  destruct (field "status" as_str data) as [s|] eqn:Es; [|reflexivity].
  cbn [mbind option_bind].
  destruct (status_of_value s) as [st|]; [|reflexivity].
  cbn [mbind option_bind].
  destruct (field "job_type" as_str data) as [t|] eqn:Et; [|reflexivity].
  cbn [mbind option_bind].
  destruct (type_of_value t) as [ty|]; [|reflexivity].
  cbn [mbind option_bind].
  destruct (forallb _ _); [|reflexivity].
  rewrite !field_set_ne by discriminate.
  assert (Hf : forall A (f : pyval -> option A), field k f data = None).
  { intros A f. unfold field. rewrite Hmiss. reflexivity. }
  cbn [In] in Hk.
  destruct Hk as [<-|[<-|[<-|[<-|[<-|[]]]]]].
  - rewrite Hf. reflexivity.
  - rewrite Hf in Es. discriminate.
  - rewrite Hf in Et. discriminate.
  - destruct (field "job_id" as_str data); [|reflexivity].
    cbn [mbind option_bind]. rewrite Hf. reflexivity.
  - destruct (field "job_id" as_str data); [|reflexivity].
    cbn [mbind option_bind].
    destruct (field "params" as_dict data); [|reflexivity].
    cbn [mbind option_bind]. rewrite Hf. reflexivity.
Qed.

Lemma from_dict_extra_key (data : pydict) (k : string) :
  In k (dict_keys data) -> ~ In k field_names -> from_dict data = None.
Proof.
  intros Hk Hno. unfold from_dict.
  destruct (field "status" as_str data) as [s|]; [|reflexivity].
  cbn [mbind option_bind].
  destruct (status_of_value s) as [st|]; [|reflexivity].
  cbn [mbind option_bind].
  destruct (field "job_type" as_str data) as [t|]; [|reflexivity].
  cbn [mbind option_bind].
  destruct (type_of_value t) as [ty|]; [|reflexivity].
  cbn [mbind option_bind].
  destruct (forallb _ _) eqn:E; [|reflexivity].
  exfalso. rewrite forallb_forall in E.
  specialize (E k (dict_keys_set _ _ _ _ (dict_keys_set _ _ _ _ Hk))).
  apply existsb_exists in E as (x & Hx & Heq).
  apply String.eqb_eq in Heq. subst x. exact (Hno Hx).
Qed.

(** X9. [from_dict] fails, as the constructor and the enum lookups do,
    on a dictionary that lacks one of the five required keys, that
    carries a key that is no field of [Job], or whose status or job
    type is a string no enum member has as value. *)
Theorem from_dict_rejects (data : pydict) :
  (forall k, In k ["job_id"; "status"; "job_type"; "params"; "created_at"] ->
             dict_get k data = None -> from_dict data = None)
  /\ (forall k, In k (dict_keys data) -> ~ In k field_names ->
                from_dict data = None)
  /\ (forall s, dict_get "status" data = Some (PStr s) ->
                (forall st, status_value st <> s) -> from_dict data = None)
  /\ (forall t, dict_get "job_type" data = Some (PStr t) ->
                (forall ty, type_value ty <> t) -> from_dict data = None).
Proof.
  split; [exact (from_dict_needs data)|].
  split; [exact (from_dict_extra_key data)|].
  split.
  - intros s Hs Hno. unfold from_dict, field. rewrite Hs.
    cbn [as_str mbind option_bind].
    rewrite (status_of_value_unknown s Hno). reflexivity.
  - intros t Ht Hno. unfold from_dict, field. rewrite Ht.
    destruct (dict_get "status" data) as [v|]; [|reflexivity].
    destruct (as_str v) as [s|]; [|reflexivity].
    cbn [mbind option_bind].
    destruct (status_of_value s); [|reflexivity].
    cbn [as_str mbind option_bind].
    rewrite (type_of_value_unknown t Hno). reflexivity.
Qed.

Lemma from_dict_rejects_witness :
  from_dict [ ("job_id", PStr "job-1"); ("status", PStr "paused");
              ("job_type", PStr "full_pipeline"); ("params", PDict []);
              ("created_at", PStr "t0") ] = None
  /\ from_dict [ ("job_id", PStr "job-1"); ("status", PStr "pending");
                 ("job_type", PStr "full_pipeline"); ("params", PDict []);
                 ("created_at", PStr "t0"); ("priority", PInt 3) ] = None.
Proof.
  split.
  - apply (proj1 (proj2 (proj2 (from_dict_rejects _))) "paused").
    + reflexivity.
    + intros []; discriminate.
  - apply (proj1 (proj2 (from_dict_rejects _)) "priority").
    + vm_compute. tauto.
    + vm_compute. intuition discriminate.
Defined.

(** X10. [to_dict] always produces the eleven fields of [Job], in
    declaration order, with the status and the job type as their string
    values; and two jobs with the same dictionary are the same job. *)
Theorem to_dict_shape (j : Job) :
  dict_keys (to_dict j) = field_names
  /\ dict_get "status" (to_dict j) = Some (PStr (status_value (status j)))
  /\ dict_get "job_type" (to_dict j) = Some (PStr (type_value (job_type j)))
  /\ (forall j', to_dict j = to_dict j' -> j = j').
Proof.
  repeat split.
  - intros j' H.
    assert (E : Some j = Some j').
    { rewrite <- (from_dict_inverts_to_dict j), H.
      apply from_dict_inverts_to_dict. }
    congruence.
Qed.

End JobDictMore.

Section JobIdMore.
Import Jobs.

Lemma append_cons (c : Ascii.ascii) (a b : string) :
  String c a +:+ b = String c (a +:+ b).
Proof. reflexivity. Qed.

Lemma ascii_compare_refl (c : Ascii.ascii) : Ascii.compare c c = Eq.
Proof. unfold Ascii.compare. apply N.compare_refl. Qed.

Lemma compare_app_l (p a b : string) :
  String.compare (p +:+ a) (p +:+ b) = String.compare a b.
Proof.
  induction p as [|c p IH]; [reflexivity|].
  rewrite !append_cons. cbn [String.compare].
  rewrite ascii_compare_refl. exact IH.
Qed.

Lemma compare_app_same_length (a b x y : string) :
  String.length a = String.length b -> String.compare a b <> Eq ->
  String.compare (a +:+ x) (b +:+ y) = String.compare a b.
Proof.
  revert b. induction a as [|c a IH]; intros [|c' b] Hlen Hne;
    try discriminate.
  - destruct Hne. reflexivity.
  - rewrite !append_cons. cbn [String.compare] in *.
    destruct (Ascii.compare c c'); try reflexivity.
    apply IH; [|exact Hne]. cbn [String.length] in Hlen. lia.
Qed.

Lemma string_length_app (a b : string) :
  String.length (a +:+ b) = (String.length a + String.length b)%nat.
Proof.
  induction a as [|c a IH]; [reflexivity|].
  rewrite append_cons. cbn [String.length]. rewrite IH. reflexivity.
Qed.

Lemma app_inv_same_length (a b x y : string) :
  String.length a = String.length b -> a +:+ x = b +:+ y -> a = b /\ x = y.
Proof.
  revert b. induction a as [|c a IH]; intros [|c' b] Hlen H; try discriminate.
  - split; [reflexivity|exact H].
  - rewrite !append_cons in H. injection H as -> H.
    cbn [String.length] in Hlen.
    destruct (IH b) as [-> ->]; [lia|exact H|]. split; reflexivity.
Qed.

(** X11. Job ids made from timestamps of the same width (as
    [strftime("%Y%m%d%H%M%S")] gives) sort as their timestamps do,
    whatever the random parts; and two of them are equal only if both
    the timestamp and the random part are. *)
Theorem generate_id_sorts (ts1 ts2 r1 r2 : string) :
  String.length ts1 = String.length ts2 ->
  (String.ltb ts1 ts2 = true ->
   String.ltb (generate_id ts1 r1) (generate_id ts2 r2) = true)
  /\ (generate_id ts1 r1 = generate_id ts2 r2 -> ts1 = ts2 /\ r1 = r2).
Proof.
  intros Hlen. unfold generate_id. split.
  - unfold String.ltb. rewrite compare_app_l.
    destruct (String.compare ts1 ts2) eqn:E; try discriminate. intros _.
    rewrite compare_app_same_length, E; [reflexivity|exact Hlen|].
    rewrite E. discriminate.
  - intros H. apply String.app_inj in H.
    apply app_inv_same_length in H as [-> H]; [|exact Hlen].
    apply String.app_inj in H. split; [reflexivity|exact H].
Qed.

Lemma generate_id_sorts_witness :
  String.ltb (generate_id "20240115103000" "ffffffff")
             (generate_id "20240115103001" "00000000") = true.
Proof.
  apply (proj1 (generate_id_sorts "20240115103000" "20240115103001"
                  "ffffffff" "00000000" eq_refl)).
  vm_compute. reflexivity.
Defined.

End JobIdMore.

(** ** Job queue *)

Section QueueMore.
Import Jobs Queue.


Lemma get_load (d : gmap string file) (id : string) :
  get d id = match d !! job_file id with
             | Some f => load_file f
             | None => None
             end.
Proof.
  unfold get, load_file.
  destruct (d !! job_file id) as [[[]|]|]; reflexivity.
Qed.






(** X15. Cancelling twice: after a cancellation that was written, a
    second [cancel] of the same id returns [False] and changes
    nothing. *)
Theorem cancel_twice (w : write_outcome) (now now' : string)
    (d : gmap string file) (id : string) (j : Job) :
  get d id = Some j -> status j = PENDING -> job_id j = id ->
  let d1 := snd (cancel Written now d id) in
  cancel w now' d1 id = (false, d1).
Proof.
  intros Hg Hs Hid d1.
  assert (Hg' : get d1 id = Some (Jobs.cancel now j)).
  { subst d1 id. unfold cancel. rewrite Hg.
    rewrite bool_decide_eq_true_2 by exact Hs. cbn [negb].
    apply (get_after_save d (Jobs.cancel now j)). }
  unfold cancel at 1. rewrite Hg'.
  rewrite bool_decide_eq_false_2; [reflexivity|].
  cbn [Jobs.cancel status]. discriminate.
Qed.

Lemma cancel_twice_witness :
  let d1 := snd (cancel Written "t1" one_pending "job-1") in
  cancel Written "t2" d1 "job-1" = (false, d1).
Proof.
  apply (cancel_twice Written "t1" "t2" one_pending "job-1" pending_job
           get_one_pending eq_refl eq_refl).
Defined.


End QueueMore.

(** ** Listing, statistics and clean-up of the queue *)

Section ListingMore.
Import Jobs Queue.

Lemma insert_sorted_perm {A} (before : A -> A -> bool) (x : A) (l : list A) :
  insert_sorted before x l ≡ₚ x :: l.
Proof.
  induction l as [|y r IH]; cbn [insert_sorted]; [reflexivity|].
  destruct (before y x); [|reflexivity].
  rewrite IH. apply Permutation_swap.
Qed.

Lemma stable_sort_perm {A} (before : A -> A -> bool) (l : list A) :
  stable_sort before l ≡ₚ l.
Proof.
  induction l as [|x r IH]; cbn [stable_sort]; [reflexivity|].
  rewrite insert_sorted_perm, IH. reflexivity.
Qed.

Lemma insert_sorted_sorted {A} (before : A -> A -> bool) (x : A) (l : list A) :
  (forall a b, before a b = true -> before b a = false) ->
  Sorted (fun a b => before b a = false) l ->
  Sorted (fun a b => before b a = false) (insert_sorted before x l).
Proof.
  intros Hasym Hl. induction Hl as [|y r Hr IH Hy]; cbn [insert_sorted].
  - repeat constructor.
  - destruct (before y x) eqn:E.
    + constructor; [exact IH|].
      destruct Hy as [|z r' Hz]; cbn [insert_sorted].
      * constructor. apply Hasym, E.
      * destruct (before z x); constructor; [exact Hz | apply Hasym, E].
    + constructor; [constructor; assumption|]. constructor. exact E.
Qed.

Lemma stable_sort_sorted {A} (before : A -> A -> bool) (l : list A) :
  (forall a b, before a b = true -> before b a = false) ->
  Sorted (fun a b => before b a = false) (stable_sort before l).
Proof.
  intros Hasym. induction l as [|x r IH]; cbn [stable_sort].
  - constructor.
  - apply insert_sorted_sorted; assumption.
Qed.

Lemma string_ltb_asym (a b : string) :
  String.ltb a b = true -> String.ltb b a = false.
Proof.
  unfold String.ltb. rewrite (String.compare_antisym b a).
  destruct (String.compare a b); cbn [CompOpp]; easy.
Qed.

Lemma string_not_ltb_leb (a b : string) :
  String.ltb a b = false <-> String.leb b a = true.
Proof.
  unfold String.ltb, String.leb. rewrite (String.compare_antisym b a).
  destruct (String.compare a b); cbn [CompOpp]; easy.
Qed.

Lemma not_older_trans : Transitive not_older.
Proof.
  intros a b c Hab Hbc. unfold not_older in *.
  pose proof (@transitivity _ String.le _ (created_at c) (created_at b)
                (created_at a)) as Ht.
  unfold String.le in Ht. apply Is_true_true. apply Ht; apply Is_true_true;
    assumption.
Qed.

Lemma newest_first_sorted (l : list Job) :
  StronglySorted not_older (stable_sort newer l).
Proof.
  apply Sorted_StronglySorted; [exact not_older_trans|].
  eapply Sorted_ind with
    (P := fun l => Sorted not_older l);
    [constructor| |
     apply (stable_sort_sorted newer l);
     intros a b; unfold newer; apply string_ltb_asym].
  intros a r _ IH Hhd. constructor; [exact IH|].
  destruct Hhd as [|b r' Hb]; constructor.
  unfold newer in Hb. apply string_not_ltb_leb in Hb. exact Hb.
Qed.

Lemma slice_to_take {A} (stop : Z) (l : list A) :
  exists k, slice_to stop l = take k l.
Proof. unfold slice_to. destruct (0 <=? stop); eexists; reflexivity. Qed.

Lemma load_all_sound (d : gmap string file) (st : option JobStatus)
    (names : list string) (j : Job) :
  j ∈ load_all d st names ->
  exists n f, n ∈ names /\ d !! n = Some f /\ load_file f = Some j
              /\ status_matches st j = true.
Proof.
  induction names as [|n names IH]; cbn [load_all].
  - intros H. inversion H.
  - assert (Hrest : j ∈ load_all d st names ->
        exists n0 f, n0 ∈ n :: names /\ d !! n0 = Some f /\
                     load_file f = Some j /\ status_matches st j = true).
    { intros H. destruct (IH H) as (n0 & f & Hn & Hf).
      exists n0, f. split; [right; exact Hn|exact Hf]. }
    destruct (d !! n) as [f|] eqn:Ed; [|exact Hrest].
    destruct (load_file f) as [job|] eqn:El; [|exact Hrest].
    destruct (status_matches st job) eqn:Es; [|exact Hrest].
    intros [->|H]%elem_of_cons; [|exact (Hrest H)].
    exists n, f. repeat split; try assumption. left.
Qed.

Lemma load_all_complete (d : gmap string file) (st : option JobStatus)
    (names : list string) (n : string) (f : file) (j : Job) :
  n ∈ names -> d !! n = Some f -> load_file f = Some j ->
  status_matches st j = true -> j ∈ load_all d st names.
Proof.
  intros Hn Hd Hl Hs. induction names as [|n0 names IH]; [inversion Hn|].
  cbn [load_all]. apply elem_of_cons in Hn as [<-|Hn].
  - rewrite Hd, Hl, Hs. left.
  - specialize (IH Hn).
    destruct (d !! n0) as [f0|]; [|exact IH].
    destruct (load_file f0) as [j0|]; [|exact IH].
    destruct (status_matches st j0); [right|]; exact IH.
Qed.

Lemma elem_of_list_jobs (d : gmap string file) (names : list string)
    (st : option JobStatus) (limit : option Z) (j : Job) :
  j ∈ list_jobs d names st limit -> j ∈ load_all d st names.
Proof.
  unfold list_jobs. intros H.
  assert (H' : j ∈ stable_sort newer (load_all d st names)).
  { destruct limit as [n|]; [|exact H].
    destruct (slice_to_take n (stable_sort newer (load_all d st names)))
      as [k Hk].
    rewrite Hk in H. exact (subseteq_take k _ _ H). }
  rewrite stable_sort_perm in H'. exact H'.
Qed.

(** X17. Every job [list_jobs] returns was read from one of the globbed
    files and has the requested status; the jobs come newest first by
    creation time; and a limit of [n >= 0] returns at most [n] jobs. *)
Theorem list_jobs_sound (d : gmap string file) (names : list string)
    (st : option JobStatus) (limit : option Z) :
  let r := list_jobs d names st limit in
  (forall j, j ∈ r ->
     (exists n f, n ∈ names /\ d !! n = Some f /\ load_file f = Some j)
     /\ (forall s, st = Some s -> status j = s))
  /\ StronglySorted
       (fun a b => String.leb (created_at b) (created_at a) = true) r
  /\ (forall n, limit = Some n -> 0 <= n -> (length r <= Z.to_nat n)%nat).
Proof.
  intros r. split; [|split].
  - intros j Hj. apply elem_of_list_jobs, load_all_sound in Hj
      as (n & f & Hn & Hd & Hl & Hs).
    split; [exists n, f; auto|].
    intros s ->. cbn [status_matches] in Hs.
    apply bool_decide_eq_true in Hs. exact Hs.
  - subst r. unfold list_jobs.
    pose proof (newest_first_sorted (load_all d st names)) as Hsorted.
    destruct limit as [n|]; [|exact Hsorted].
    destruct (slice_to_take n (stable_sort newer (load_all d st names)))
      as [k Hk].
    rewrite Hk. rewrite <- (take_drop k) in Hsorted.
    exact (StronglySorted_app_1_l _ _ _ Hsorted).
  - intros n -> Hn. subst r. unfold list_jobs, slice_to.
    rewrite (proj2 (Z.leb_le 0 n) Hn), length_take. lia.
Qed.

(** X18. Without a limit nothing readable is left out: a job that [get]
    finds, and whose status is the requested one, is in the list. Files
    that cannot be read do not make the listing fail; they are skipped,
    so the list has exactly as many jobs as files were read. *)
Theorem list_jobs_complete (d : gmap string file) (names : list string)
    (st : option JobStatus) (id : string) (j : Job) :
  enumerates d names ->
  get d id = Some j -> status_matches st j = true ->
  j ∈ list_jobs d names st None
  /\ length (list_jobs d names st None) = length (load_all d st names).
Proof.
  intros [_ Hnames] Hg Hs. split.
  - unfold list_jobs. rewrite stable_sort_perm.
    rewrite get_load in Hg.
    destruct (d !! job_file id) as [f|] eqn:Ed; [|discriminate].
    apply (load_all_complete d st names (job_file id) f j); auto.
    apply Hnames. split; [eauto|].
    unfold is_json_name, job_file. rewrite string_length_app. cbn [String.length].
    replace (String.length id + 5 - 5)%nat with (String.length id) by lia.
    apply andb_true_iff. split; [apply Nat.leb_le; lia|].
    apply String.eqb_eq. clear. induction id as [|c id IH]; [reflexivity|].
    rewrite append_cons. cbn [String.length substring]. exact IH.
  - unfold list_jobs. rewrite stable_sort_perm. reflexivity.
Qed.

(** X19. A limit cuts the listing at its end: what is returned is a
    prefix of the unlimited listing, of length [min n len] for
    [n >= 0]. A negative limit is taken as Python slices take it: the
    last [-n] jobs are dropped, so [-1] leaves out the oldest job. *)
Theorem list_jobs_limit (d : gmap string file) (names : list string)
    (st : option JobStatus) (n : Z) :
  let all := list_jobs d names st None in
  let r := list_jobs d names st (Some n) in
  r `prefix_of` all
  /\ (0 <= n -> length r = Nat.min (Z.to_nat n) (length all))
  /\ (n < 0 -> length r = (length all - Z.to_nat (- n))%nat).
Proof.
  intros all r. subst all r. unfold list_jobs.
  set (sorted := stable_sort newer (load_all d st names)).
  split; [|split].
  - destruct (slice_to_take n sorted) as [k ->].
    exists (drop k sorted). symmetry. apply take_drop.
  - intros Hn. unfold slice_to. rewrite (proj2 (Z.leb_le 0 n) Hn).
    apply length_take.
  - intros Hn. unfold slice_to. rewrite (proj2 (Z.leb_gt 0 n) Hn).
    rewrite length_take. lia.
Qed.

Lemma list_jobs_limit_witness :
  length (list_jobs mixed_queue [job_file "job-1"; job_file "job-2"]
                    None (Some (-1)))
  = (length (list_jobs mixed_queue [job_file "job-1"; job_file "job-2"]
                       None None) - Z.to_nat (- -1))%nat.
Proof.
  apply (proj2 (proj2 (list_jobs_limit mixed_queue
           [job_file "job-1"; job_file "job-2"] None (-1)))).
  lia.
Defined.

Lemma count_status_partition (l : list Job) :
  length l = (count_status PENDING l + count_status RUNNING l
              + count_status COMPLETED l + count_status FAILED l
              + count_status CANCELLED l)%nat.
Proof.
  unfold count_status. induction l as [|j l IH]; [reflexivity|].
  rewrite !filter_cons. cbn [length].
  destruct (status j); repeat case_decide; try congruence;
    cbn [length]; lia.
Qed.

(** X20. In the statistics the total is the sum of the five per-status
    counts, and it is the number of job files that could be read. *)
Theorem get_stats_total (d : gmap string file) (names : list string) :
  let s := get_stats d names in
  total s = (pending s + running s + completed s + failed s + cancelled s)%nat
  /\ total s = length (load_all d None names).
Proof.
  cbn [get_stats total pending running completed failed cancelled]. split.
  - apply count_status_partition.
  - unfold list_jobs. rewrite stable_sort_perm. reflexivity.
Qed.

Lemma delete_key (u : outcome string unit) (d : gmap string file)
    (id k : string) :
  job_file id <> k -> snd (delete u d id) !! k = d !! k.
Proof.
  intros Hne. unfold delete.
  destruct (d !! job_file id), u; cbn [snd]; try reflexivity.
  apply lookup_delete_ne. exact Hne.
Qed.

Lemma delete_each_frame (unlink : string -> outcome string unit)
    (l : list Job) (k : string) : forall d : gmap string file,
  (forall j, j ∈ l -> job_file (job_id j) <> k) ->
  snd (delete_each unlink d l) !! k = d !! k.
Proof.
  induction l as [|j l IH]; intros d Hk; [reflexivity|].
  cbn [delete_each].
  pose proof (delete_key (unlink (job_file (job_id j))) d (job_id j) k
                (Hk j ltac:(left))) as Hd.
  destruct (delete _ d (job_id j)) as [ok d1].
  specialize (IH d1 (fun j' Hj' => Hk j' ltac:(right; exact Hj'))).
  destruct (delete_each unlink d1 l) as [c d2].
  cbn [snd] in *. rewrite IH. exact Hd.
Qed.

Lemma delete_each_count (unlink : string -> outcome string unit)
    (l : list Job) : forall d : gmap string file,
  (fst (delete_each unlink d l) <= length l)%nat.
Proof.
  induction l as [|j l IH]; intros d; [reflexivity|].
  cbn [delete_each].
  destruct (delete _ d (job_id j)) as [ok d1].
  specialize (IH d1). destruct (delete_each unlink d1 l) as [c d2].
  cbn [fst length] in *. destruct ok; lia.
Qed.

Lemma candidates_finished (d : gmap string file) (names : list string)
    (keep_recent : Z) (j : Job) :
  j ∈ cleanup_candidates d names keep_recent ->
  exists n f, n ∈ names /\ d !! n = Some f /\ load_file f = Some j
              /\ (status j = COMPLETED \/ status j = FAILED).
Proof.
  unfold cleanup_candidates.
  destruct (keep_recent <? _); [|intros H; inversion H].
  intros H.
  destruct (slice_to_take (- keep_recent)
              (stable_sort finished_earlier
                 (list_jobs d names (Some COMPLETED) None
                  ++ list_jobs d names (Some FAILED) None))) as [k Hk].
  rewrite Hk in H. apply subseteq_take in H.
  rewrite stable_sort_perm in H.
  apply elem_of_app in H as [H|H];
    apply elem_of_list_jobs, load_all_sound in H
      as (n & f & Hn & Hd & Hl & Hs);
    cbn [status_matches] in Hs; apply bool_decide_eq_true in Hs;
    exists n, f; auto.
Qed.

(** X21. [cleanup_completed] touches nothing but finished jobs: in a
    directory whose job files are named after the ids they hold, every
    file that is not a completed or failed job (a pending, running or
    cancelled job, or a file that cannot be read) is still there
    afterwards, unchanged, whatever [keep_recent] is. *)
Theorem cleanup_keeps_unfinished (unlink : string -> outcome string unit)
    (d : gmap string file) (names : list string) (keep_recent : Z)
    (n : string) (f : file) :
  consistent d ->
  d !! n = Some f ->
  (forall j, load_file f = Some j ->
             status j <> COMPLETED /\ status j <> FAILED) ->
  snd (cleanup_completed unlink d names keep_recent) !! n = Some f.
Proof.
  intros Hcons Hn Hf. unfold cleanup_completed.
  rewrite delete_each_frame; [exact Hn|].
  intros j Hj Heq.
  apply candidates_finished in Hj as (n' & f' & _ & Hd' & Hl' & Hst).
  pose proof (Hcons n' f' j Hd' Hl') as Hn'.
  rewrite Heq in Hn'. subst n'. rewrite Hn in Hd'. injection Hd' as <-.
  destruct (Hf j Hl') as [H1 H2]. destruct Hst; contradiction.
Qed.

Lemma load_pending_file :
  load_file (JsonFile (PDict (to_dict pending_job))) = Some pending_job.
Proof. apply from_dict_inverts_to_dict. Qed.

Lemma load_completed_file :
  load_file (JsonFile (PDict (to_dict completed_job))) = Some completed_job.
Proof. apply from_dict_inverts_to_dict. Qed.

Lemma mixed_queue_lookup (n : string) (f : file) :
  mixed_queue !! n = Some f ->
  (n = job_file "job-2" /\ f = JsonFile (PDict (to_dict completed_job)))
  \/ (n = job_file "job-1" /\ f = JsonFile (PDict (to_dict pending_job))).
Proof.
  unfold mixed_queue, one_pending.
  intros [[<- <-]|[_ [<- <-]%lookup_singleton_Some]]%lookup_insert_Some; auto.
Qed.

Lemma mixed_queue_consistent : consistent mixed_queue.
Proof.
  intros n f j Hn Hl.
  destruct (mixed_queue_lookup n f Hn) as [[-> ->]|[-> ->]].
  - rewrite load_completed_file in Hl. injection Hl as <-. reflexivity.
  - rewrite load_pending_file in Hl. injection Hl as <-. reflexivity.
Qed.

Lemma mixed_queue_pending :
  mixed_queue !! job_file "job-1"
  = Some (JsonFile (PDict (to_dict pending_job))).
Proof.
  unfold mixed_queue. rewrite lookup_insert_ne by discriminate.
  apply lookup_singleton_eq.
Qed.

(** Cleaning up while keeping no finished job at all leaves the pending
    one in place. *)
Lemma cleanup_keeps_unfinished_witness :
  snd (cleanup_completed (fun _ => Ok tt) mixed_queue
         [job_file "job-1"; job_file "job-2"] (-1))
    !! job_file "job-1"
  = Some (JsonFile (PDict (to_dict pending_job))).
Proof.
  apply (cleanup_keeps_unfinished (fun _ => Ok tt) mixed_queue
           [job_file "job-1"; job_file "job-2"] (-1) (job_file "job-1")
           (JsonFile (PDict (to_dict pending_job)))
           mixed_queue_consistent mixed_queue_pending).
  intros j Hj. rewrite load_pending_file in Hj. injection Hj as <-.
  split; discriminate.
Defined.

(** X22. [cleanup_completed] deletes nothing when there are no more
    finished jobs than [keep_recent], and also when [keep_recent] is 0:
    the slice [finished[:-0]] is empty. With [0 < keep_recent] below the
    number of finished jobs it sets out to delete all but [keep_recent]
    of them, and the count it returns never exceeds that. *)
Theorem cleanup_keep_recent (unlink : string -> outcome string unit)
    (d : gmap string file) (names : list string) (keep_recent : Z) :
  let finished :=
    (length (list_jobs d names (Some COMPLETED) None)
     + length (list_jobs d names (Some FAILED) None))%nat in
  let r := cleanup_completed unlink d names keep_recent in
  (keep_recent = 0 \/ Z.of_nat finished <= keep_recent -> r = (0%nat, d))
  /\ (fst r <= length (cleanup_candidates d names keep_recent))%nat
  /\ (0 < keep_recent < Z.of_nat finished ->
      length (cleanup_candidates d names keep_recent)
      = (finished - Z.to_nat keep_recent)%nat
      /\ (fst r <= finished - Z.to_nat keep_recent)%nat).
Proof.
  intros finished r.
  assert (Hlen : length (stable_sort finished_earlier
                   (list_jobs d names (Some COMPLETED) None
                    ++ list_jobs d names (Some FAILED) None)) = finished).
  { rewrite stable_sort_perm, length_app. reflexivity. }
  assert (Hcount : (fst r <= length (cleanup_candidates d names keep_recent))%nat)
    by apply delete_each_count.
  assert (Hcand : 0 < keep_recent < Z.of_nat finished ->
            length (cleanup_candidates d names keep_recent)
            = (finished - Z.to_nat keep_recent)%nat).
  { intros [H0 H1]. unfold cleanup_candidates. rewrite Hlen.
    rewrite (proj2 (Z.ltb_lt _ _) H1). unfold slice_to.
    rewrite (proj2 (Z.leb_gt 0 (- keep_recent))) by lia.
    rewrite length_take, Hlen. lia. }
  split; [|split; [exact Hcount|]].
  - intros Hk. subst r. unfold cleanup_completed.
    assert (Hnone : cleanup_candidates d names keep_recent = []).
    { unfold cleanup_candidates. rewrite Hlen.
      destruct (keep_recent <? Z.of_nat finished) eqn:E; [|reflexivity].
      apply Z.ltb_lt in E. destruct Hk as [->|Hk]; [reflexivity|lia]. }
    rewrite Hnone. reflexivity.
  - intros Hk. split; [exact (Hcand Hk)|]. rewrite <- (Hcand Hk). exact Hcount.
Qed.

(** Keeping zero finished jobs deletes none of them. *)
Lemma cleanup_keep_recent_witness :
  cleanup_completed (fun _ => Ok tt) mixed_queue
    [job_file "job-1"; job_file "job-2"] 0 = (0%nat, mixed_queue).
Proof.
  apply (proj1 (cleanup_keep_recent (fun _ => Ok tt) mixed_queue
           [job_file "job-1"; job_file "job-2"] 0)).
  left. reflexivity.
Defined.

End ListingMore.

Section ListingRuns.
Import Jobs Queue.

Lemma mixed_queue_enumerated :
  enumerates mixed_queue [job_file "job-1"; job_file "job-2"].
Proof.
  split.
  - repeat constructor; [|apply not_elem_of_nil].
    intros [H|H]%elem_of_cons; [discriminate|inversion H].
  - intros n. split.
    + intros [->|[->|H]%elem_of_cons]%elem_of_cons; [| |inversion H].
      * split; [|reflexivity]. rewrite mixed_queue_pending. eauto.
      * split; [|reflexivity]. unfold mixed_queue.
        rewrite lookup_insert_eq. eauto.
    + intros [[f Hf] _].
      destruct (mixed_queue_lookup n f Hf) as [[-> _]|[-> _]].
      * right. left.
      * left.
Qed.

Lemma get_mixed_completed : get mixed_queue "job-2" = Some completed_job.
Proof.
  unfold get, mixed_queue. rewrite lookup_insert_eq.
  apply from_dict_inverts_to_dict.
Qed.

Lemma list_jobs_complete_witness :
  completed_job ∈ list_jobs mixed_queue [job_file "job-1"; job_file "job-2"]
                            (Some COMPLETED) None
  /\ length (list_jobs mixed_queue [job_file "job-1"; job_file "job-2"]
                       (Some COMPLETED) None)
     = length (load_all mixed_queue (Some COMPLETED)
                        [job_file "job-1"; job_file "job-2"]).
Proof.
  apply (list_jobs_complete mixed_queue [job_file "job-1"; job_file "job-2"]
           (Some COMPLETED) "job-2" completed_job
           mixed_queue_enumerated get_mixed_completed).
  reflexivity.
Defined.

End ListingRuns.

(** ** Job endpoints *)

Section ApiMore.
Import Jobs Queue Api.

(** X23. [submit_job] answers 500 when no queue was set and when the
    job file cannot be written. Otherwise it answers with the new id
    and status ["pending"], and [get_job_status] on that id then
    reports a pending full-pipeline job with progress [0.0]. *)
Theorem submit_job_then_status (queue : option (gmap string file))
    (w : write_outcome) (new_id now : string) (request : PipelineRequest) :
  let r := submit_job queue w new_id now request in
  (queue = None -> exists e, fst r = Raise e /\ status_code e = 500)
  /\ (w <> Written -> exists e, fst r = Raise e /\ status_code e = 500)
  /\ (queue <> None -> w = Written ->
      (exists resp, fst r = Ok resp /\ response_job_id resp = new_id
                    /\ response_status resp = "pending")
      /\ exists jr, get_job_status (snd r) new_id = Ok jr
           /\ r_job_id jr = new_id /\ r_status jr = "pending"
           /\ r_job_type jr = "full_pipeline"
           /\ r_progress jr = PyFloat.zero /\ r_stage jr = "Queued"
           /\ r_result jr = None /\ r_error jr = None).
Proof.
  intros r. subst r. split; [|split].
  - intros ->. eexists. split; reflexivity.
  - intros Hw. destruct queue as [d|]; [|eexists; split; reflexivity].
    destruct w; [congruence| |]; eexists; split; reflexivity.
  - intros Hq ->. destruct queue as [d|]; [|congruence].
    cbn [submit_job submit _save_job fst snd]. split.
    + eexists. repeat split.
    + unfold get_job_status.
      pose proof (get_after_save d
                    (create new_id now FULL_PIPELINE (request_params request)))
        as Hg.
      cbn [_save_job snd create job_id] in Hg. cbn [create job_id].
      rewrite Hg. eexists. split; [reflexivity|]. repeat split.
Qed.

Lemma submit_job_then_status_witness :
  let request := {| text := "Hello"; voice_profile_id := "vp-1";
                    avatar_image_path := "avatar.png";
                    output_filename := None; quality := "high";
                    fps := None; cleanup_intermediates := true |} in
  let r := submit_job (Some ∅) Written "job-7" "t0" request in
  (exists resp, fst r = Ok resp /\ response_job_id resp = "job-7"
                /\ response_status resp = "pending")
  /\ exists jr, get_job_status (snd r) "job-7" = Ok jr
       /\ r_job_id jr = "job-7" /\ r_status jr = "pending"
       /\ r_job_type jr = "full_pipeline"
       /\ r_progress jr = PyFloat.zero /\ r_stage jr = "Queued"
       /\ r_result jr = None /\ r_error jr = None.
Proof.
  intros request.
  apply (proj2 (proj2 (submit_job_then_status (Some ∅) Written "job-7" "t0"
                         request))).
  - discriminate.
  - reflexivity.
Defined.



End ApiMore.

(** ** Pipeline runs: results, calls and deletions *)

Section CoordinatorMore.
Import PyFloat Coordinator.

Variable w : World.
Variable temp_dir : path.

Ltac unfold_stmt :=
  unfold bind, invoke, raise_if, append_stage, record_file, log, ret, raise;
  cbn [stages_so_far files_so_far trace fst snd].

Ltac step :=
  match goal with
  | |- context [match ?o with Ok _ => _ | Raise _ => _ end] =>
      destruct o eqn:?
  | |- context [if negb ?b then _ else _] => destruct b eqn:?; cbn [negb]
  | |- context [if gt_int ?d ?m then _ else _] => destruct (gt_int d m) eqn:?
  end.

(** The calls of the five stages: a prefix of the fixed order, all of
    it when the stages succeed; and the recorded files are at most the
    audio and the lip-sync artifact. *)
Lemma run_stages_calls (text voice_profile_id : string)
    (avatar_image output : path) (config : PipelineConfig) :
  match run_stages w temp_dir text voice_profile_id avatar_image output
                   config init_locals with
  | (o, s) =>
      (exists n, trace s = map Called (take n call_order)
                 /\ ((exists enc, o = Ok enc) -> n = 8%nat))
      /\ exists files, files_so_far s = Some files
           /\ forall k p, (k, p) ∈ files -> k = "audio" \/ k = "lipsync"
  end.
Proof.
  unfold run_stages, init_locals. unfold_stmt.
  repeat (step; unfold_stmt);
    cbn [app files_set String.eqb Ascii.eqb Bool.eqb];
    (split;
     [ first [ exists 0%nat; split; [reflexivity|]
             | exists 1%nat; split; [reflexivity|]
             | exists 2%nat; split; [reflexivity|]
             | exists 3%nat; split; [reflexivity|]
             | exists 4%nat; split; [reflexivity|]
             | exists 5%nat; split; [reflexivity|]
             | exists 6%nat; split; [reflexivity|]
             | exists 7%nat; split; [reflexivity|]
             | exists 8%nat; split; [reflexivity|] ];
       try (intros [? ?]; discriminate); reflexivity
     | eexists; split; [reflexivity|];
       intros k p Hin;
       repeat (apply elem_of_cons in Hin as [Hin|Hin];
               [injection Hin as -> _; auto|]);
       inversion Hin ]).
Qed.

(** What a successful pass through the five stages implies about the
    collaborators. *)
Lemma run_stages_ok (text voice_profile_id : string)
    (avatar_image output : path) (config : PipelineConfig)
    (enc : EncodingResult) (s : locals) :
  run_stages w temp_dir text voice_profile_id avatar_image output
             config init_locals = (Ok enc, s) ->
  exists profile sr det verdict lr,
    load_profile w voice_profile_id = Ok profile
    /\ synthesize w text profile
         (temp_file temp_dir "speech" (clock w CSynthesize) ".wav") = Ok sr
    /\ synth_success sr = true
    /\ gt_int (synth_duration_seconds sr) (max_video_length_seconds config)
       = false
    /\ avatar_exists w avatar_image = true
    /\ detect w avatar_image = Ok det /\ detected det = true
    /\ validate_for_lipsync w det = Ok verdict /\ fst verdict = true
    /\ generate w avatar_image (audio_path sr)
         (temp_file temp_dir "lipsync" (clock w CGenerate) ".mp4")
         (lipsync_config_of config) = Ok lr
    /\ lipsync_success lr = true
    /\ mkdir_parents w output = Ok tt
    /\ encode w (video_path lr) output (encoding_config_of config) = Ok enc
    /\ encoding_success enc = true.
Proof.
  unfold run_stages, init_locals. unfold_stmt.
  repeat (step; unfold_stmt); try discriminate.
  intros [= <- <-].
  repeat match goal with u : unit |- _ => destruct u end.
  do 5 eexists. repeat split; eauto.
Qed.

(** The events of a whole run: those of the stages, then the
    deletions. *)
Lemma execute_trace (text voice_profile_id : string)
    (avatar_image output : path) (cfg : option PipelineConfig) :
  let config := default default_config cfg in
  match run_stages w temp_dir text voice_profile_id avatar_image output
                   config init_locals with
  | (o, s) =>
      snd (execute_traced w temp_dir text voice_profile_id avatar_image
                          output cfg)
      = (trace s ++
         (if cleanup_intermediates config
          then _cleanup_files w (default [] (files_so_far s))
          else []))%list
  end.
Proof.
  intros config. unfold execute_traced. fold config.
  rewrite try_block_unfold.
  destruct (run_stages _ _ _ _ _ _ _ _) as [[enc | e] s] eqn:E.
  - destruct (cleanup_intermediates config); cbn [snd trace].
    + reflexivity.
    + rewrite app_nil_r. reflexivity.
  - cbn [snd]. destruct (cleanup_intermediates config).
    + destruct (files_so_far s) as [[|x l]|]; cbn [truthy andb default];
        reflexivity.
    + rewrite andb_false_r. reflexivity.
Qed.

Lemma cleanup_files_unlinked (files : list (string * option path)) (p : path) :
  Unlinked p ∈ _cleanup_files w files <->
  (exists k, (k, Some p) ∈ files) /\ file_exists w p = true
  /\ unlink w p = Ok tt.
Proof.
  induction files as [|[k [q|]] files IH]; cbn [_cleanup_files].
  - split; [intros H; inversion H|intros [[k H] _]; inversion H].
  - assert (Hrest : (exists k0, (k0, Some p) ∈ files) /\ file_exists w p = true
                    /\ unlink w p = Ok tt ->
                    (exists k0, (k0, Some p) ∈ (k, Some q) :: files)
                    /\ file_exists w p = true /\ unlink w p = Ok tt).
    { intros [[k0 H] H']. split; [exists k0; right; exact H|exact H']. }
    assert (Hback : (exists k0, (k0, Some p) ∈ (k, Some q) :: files) ->
                    p <> q -> exists k0, (k0, Some p) ∈ files).
    { intros [k0 [H|H]%elem_of_cons] Hne; [congruence|eauto]. }
    destruct (file_exists w q) eqn:Ee.
    + destruct (unlink w q) as [[]|msg] eqn:Eu.
      * rewrite elem_of_cons, IH. split.
        -- intros [[= ->]|H]; [|exact (Hrest H)].
           split; [exists k; left|auto].
        -- intros (Hk & He & Hu).
           destruct (decide (p = q)) as [->|Hne]; [left; reflexivity|].
           right. split; [exact (Hback Hk Hne)|auto].
      * rewrite IH. split; [exact Hrest|].
        intros (Hk & He & Hu). split; [|auto].
        apply (Hback Hk). intros ->. congruence.
    + rewrite IH. split; [exact Hrest|].
      intros (Hk & He & Hu). split; [|auto].
      apply (Hback Hk). intros ->. congruence.
  - rewrite IH. split.
    + intros [[k0 H] H']. split; [exists k0; right; exact H|exact H'].
    + intros ([k0 [H|H]%elem_of_cons] & H'); [discriminate|].
      split; [eauto|exact H'].
Qed.

Lemma calls_not_unlinked (l : list call) (p : path) :
  Unlinked p ∉ map Called l.
Proof.
  induction l as [|c l IH]; cbn [map].
  - apply not_elem_of_nil.
  - intros [H|H]%elem_of_cons; [discriminate|exact (IH H)].
Qed.


(** C3, as amended. After a successful run for which cleanup was not
    requested, the result carries the map of the intermediates recorded
    during the run: the audio and the lip-sync artifact that the
    adapters returned, under their categories; and the run has deleted
    nothing. After a failed run for which cleanup was requested the
    result carries no map, and the recorded intermediates have been
    deleted as far as possible: a path is deleted if and only if it was
    recorded, the file exists and unlinking it succeeds. *)
Theorem intermediates_in_result (text voice_profile_id : string)
    (avatar_image output : path) (cfg : option PipelineConfig) :
  let config := default default_config cfg in
  let run := execute_traced w temp_dir text voice_profile_id avatar_image
                            output cfg in
  let r := execute w temp_dir text voice_profile_id avatar_image output cfg in
  let recorded :=
    files_so_far
      (snd (run_stages w temp_dir text voice_profile_id avatar_image
                       output config init_locals)) in
  (success r = true -> cleanup_intermediates config = false ->
     intermediate_files r = recorded
     /\ (exists profile sr lr,
         load_profile w voice_profile_id = Ok profile /\
         synthesize w text profile
           (temp_file temp_dir "speech" (clock w CSynthesize) ".wav") = Ok sr /\
         generate w avatar_image (audio_path sr)
           (temp_file temp_dir "lipsync" (clock w CGenerate) ".mp4")
           (lipsync_config_of config) = Ok lr /\
         intermediate_files r
           = Some [("audio", audio_path sr); ("lipsync", video_path lr)])
     /\ (forall p, Unlinked p ∉ snd run))
  /\ (success r = false -> cleanup_intermediates config = true ->
      intermediate_files r = None
      /\ (forall p, Unlinked p ∈ snd run <->
            (exists k, (k, Some p) ∈ default [] recorded)
            /\ file_exists w p = true /\ unlink w p = Ok tt)).
Proof.
  intros config run r recorded.
  pose proof (execute_stages w temp_dir text voice_profile_id avatar_image
                output cfg) as He.
  pose proof (run_stages_shape w temp_dir text voice_profile_id avatar_image
                output config) as Hs.
  pose proof (execute_trace text voice_profile_id avatar_image output cfg)
    as Ht.
  pose proof (run_stages_calls text voice_profile_id avatar_image output
                config) as Hc.
  cbv zeta in He, Ht. fold config in He, Ht. fold r in He. fold run in Ht.
  subst recorded.
  destruct (run_stages _ _ _ _ _ _ _ _) as [[enc | e] s]; cbn [snd];
    destruct Hc as [(n & Hn & _) _].
  - destruct He as (Hok & _ & _ & Hfiles), Hs as [_ Hrec]. split.
    + intros _ Hkeep. rewrite Hkeep in Hfiles, Ht.
      split; [exact Hfiles|]. split.
      * destruct Hrec as (profile & sr & lr & H1 & H2 & H3 & H4).
        exists profile, sr, lr. rewrite Hfiles. auto.
      * intros p. rewrite Ht, app_nil_r, Hn. apply calls_not_unlinked.
    + rewrite Hok. discriminate.
  - destruct He as (Hok & _ & _ & Hfiles). split.
    + rewrite Hok. discriminate.
    + intros _ Hon. split; [exact Hfiles|].
      intros p. rewrite Ht, Hon, Hn, elem_of_app, cleanup_files_unlinked.
      split.
      * intros [H|H]; [destruct (calls_not_unlinked _ _ H)|exact H].
      * intros H. right. exact H.
Qed.

(** X25. The result of a run is either a success, with the output path
    and the duration of the encoded video and no error, or a failure,
    with an error, no output path and duration [0.0]; it never carries
    a job id. *)
Theorem result_is_consistent (text voice_profile_id : string)
    (avatar_image output : path) (cfg : option PipelineConfig) :
  let r := execute w temp_dir text voice_profile_id avatar_image output cfg in
  job_id r = None
  /\ processing_time_seconds r = elapsed w
  /\ (success r = true <-> error r = None)
  /\ (success r = true <-> output_path r = Some output)
  /\ (success r = false -> output_path r = None /\ duration_seconds r = zero
                           /\ intermediate_files r = None).
Proof.
  intros r. subst r. unfold execute, execute_traced.
  destruct (try_block _ _ _ _ _ _ _ _) as [[enc|e] s]; cbn [fst job_id
    processing_time_seconds success error output_path duration_seconds
    intermediate_files];
    repeat split; try discriminate; auto.
Qed.

(** X26. The collaborators are called in the fixed order, each at most
    once and none skipped: the calls of a run are a prefix of profile
    load, synthesis, avatar check, detection, validation, lip-sync,
    output directory, encoding, and a run that succeeds has made all
    eight. Deletions of intermediates come after the last call. *)
Theorem calls_in_fixed_order (text voice_profile_id : string)
    (avatar_image output : path) (cfg : option PipelineConfig) :
  let run := execute_traced w temp_dir text voice_profile_id avatar_image
                            output cfg in
  exists n deleted,
    snd run = (map Called (take n call_order) ++ map Unlinked deleted)%list
    /\ (success (fst run) = true -> n = length call_order).
Proof.
  intros run.
  pose proof (execute_trace text voice_profile_id avatar_image output cfg)
    as Ht.
  pose proof (execute_stages w temp_dir text voice_profile_id avatar_image
                output cfg) as He.
  pose proof (run_stages_calls text voice_profile_id avatar_image output
                (default default_config cfg)) as Hc.
  cbv zeta in Ht, He. unfold execute in He. fold run in Ht, He.
  destruct (run_stages _ _ _ _ _ _ _ _) as [o s].
  destruct Hc as [(n & Hn & Hall) _].
  assert (Hdel : forall files, exists deleted,
             _cleanup_files w files = map Unlinked deleted).
  { induction files as [|[k [p|]] files [del IH]]; cbn [_cleanup_files].
    - exists []. reflexivity.
    - destruct (file_exists w p); [|eauto].
      destruct (unlink w p); [|eauto].
      exists (p :: del). rewrite IH. reflexivity.
    - eauto. }
  destruct (Hdel (default [] (files_so_far s))) as [deleted Hd].
  exists n, (if cleanup_intermediates (default default_config cfg)
             then deleted else []).
  split.
  - rewrite Ht, Hn.
    destruct (cleanup_intermediates _); [rewrite Hd|]; reflexivity.
  - cbn [call_order length]. destruct o as [enc|e].
    + intros _. apply Hall. eauto.
    + destruct He as [-> _]. discriminate.
Qed.

(** X27. A run for which cleanup of intermediates is switched off
    deletes nothing, whether it succeeds or fails. *)
Theorem no_cleanup_no_deletion (text voice_profile_id : string)
    (avatar_image output : path) (config : PipelineConfig) (p : path) :
  cleanup_intermediates config = false ->
  Unlinked p ∉ snd (execute_traced w temp_dir text voice_profile_id
                      avatar_image output (Some config)).
Proof.
  intros Hoff.
  pose proof (execute_trace text voice_profile_id avatar_image output
                (Some config)) as Ht.
  pose proof (run_stages_calls text voice_profile_id avatar_image output
                config) as Hc.
  cbv zeta in Ht.
  change (default default_config (Some config)) with config in Ht.
  destruct (run_stages _ _ _ _ _ _ _ _) as [o s].
  destruct Hc as [(n & Hn & _) _].
  rewrite Ht, Hoff, app_nil_r, Hn.
  apply calls_not_unlinked.
Qed.


(** X29. A run succeeds only if every stage did: the profile was
    loaded, synthesis reported success with a duration that does not
    exceed the limit, the avatar file exists and its face was detected
    and found suitable, and lip-sync and encoding reported success. *)
Theorem success_needs_every_stage (text voice_profile_id : string)
    (avatar_image output : path) (cfg : option PipelineConfig) :
  let config := default default_config cfg in
  success (execute w temp_dir text voice_profile_id avatar_image output cfg)
    = true ->
  exists profile sr det verdict lr enc,
    load_profile w voice_profile_id = Ok profile
    /\ synthesize w text profile
         (temp_file temp_dir "speech" (clock w CSynthesize) ".wav") = Ok sr
    /\ synth_success sr = true
    /\ gt_int (synth_duration_seconds sr) (max_video_length_seconds config)
       = false
    /\ avatar_exists w avatar_image = true
    /\ detect w avatar_image = Ok det /\ detected det = true
    /\ validate_for_lipsync w det = Ok verdict /\ fst verdict = true
    /\ generate w avatar_image (audio_path sr)
         (temp_file temp_dir "lipsync" (clock w CGenerate) ".mp4")
         (lipsync_config_of config) = Ok lr
    /\ lipsync_success lr = true
    /\ encode w (video_path lr) output (encoding_config_of config) = Ok enc
    /\ encoding_success enc = true
    /\ duration_seconds
         (execute w temp_dir text voice_profile_id avatar_image output cfg)
       = encoding_duration_seconds enc.
Proof.
  intros config Hok.
  pose proof (run_stages_ok text voice_profile_id avatar_image output config)
    as Hinv.
  assert (Hdur : forall enc s,
            run_stages w temp_dir text voice_profile_id avatar_image output
                       config init_locals = (Ok enc, s) ->
            duration_seconds (execute w temp_dir text voice_profile_id
                                avatar_image output cfg)
            = encoding_duration_seconds enc).
  { intros enc s E. unfold execute, execute_traced. fold config.
    rewrite try_block_unfold, E.
    destruct (cleanup_intermediates config); reflexivity. }
  pose proof (execute_stages w temp_dir text voice_profile_id avatar_image
                output cfg) as He.
  cbv zeta in He. fold config in He.
  destruct (run_stages _ _ _ _ _ _ _ _) as [[enc|e] s].
  - destruct (Hinv enc s eq_refl)
      as (profile & sr & det & verdict & lr & H).
    exists profile, sr, det, verdict, lr, enc.
    specialize (Hdur enc s eq_refl). intuition.
  - destruct He as [Hf _]. congruence.
Qed.

(** X30. [estimate_duration] returns zero audio duration, zero
    processing time, no stages and the error text when the profile
    cannot be loaded or the synthesizer fails. Otherwise, for every
    word count, the audio duration is the synthesizer's estimate, the
    five stages of a run are listed in their order, the processing time
    is their sum, and the synthesis, lip-sync and encoding estimates are
    the larger of a floor (5 s, 10 s, 2 s) and a multiple of the audio
    duration, hence never below the floor. *)
Theorem estimate_duration_floors (py_sum : list float -> float)
    (word_count : string -> outcome string Z)
    (text voice_profile_id : string) :
  let est := estimate_duration w py_sum word_count text voice_profile_id in
  (forall e, load_profile w voice_profile_id = Raise e ->
     est = {| est_audio_duration := zero; est_processing_time := zero;
              est_stages := []; est_error := Some e |})
  /\ (forall profile e, load_profile w voice_profile_id = Ok profile ->
        word_count text = Raise e ->
        est = {| est_audio_duration := zero; est_processing_time := zero;
                 est_stages := []; est_error := Some e |})
  /\ (forall profile words, load_profile w voice_profile_id = Ok profile ->
        word_count text = Ok words ->
        est_error est = None
        /\ est_audio_duration est = synthesizer_estimate words
        /\ map fst (est_stages est) = all_stages
        /\ est_processing_time est = py_sum (map snd (est_stages est))
        /\ exists a s v l c,
             est_stages est = [ ("load_profile", a); ("synthesize_speech", s);
                                ("validate_avatar", v);
                                ("generate_lipsync", l); ("encode_video", c) ]
             /\ s = py_max (of_int 5)
                           (fmul (synthesizer_estimate words) (of_int 2))
             /\ l = py_max (of_int 10)
                           (fmul (synthesizer_estimate words) (of_int 5))
             /\ c = py_max (of_int 2)
                           (fmul (synthesizer_estimate words)
                                 (fdiv (of_int 1) (of_int 2)))
             /\ leb (of_int 5) s = true /\ leb (of_int 10) l = true
             /\ leb (of_int 2) c = true).
Proof.
  assert (Hmax : forall a b, leb a a = true -> leb a (py_max a b) = true).
  { intros a b Ha. unfold py_max. destruct (ltb a b) eqn:E;
      [apply ltb_leb, E | exact Ha]. }
  intros est. subst est. unfold estimate_duration.
  split; [|split].
  - intros e ->. reflexivity.
  - intros profile e -> ->. reflexivity.
  - intros profile words -> ->.
    cbn [est_error est_stages est_processing_time est_audio_duration].
    split; [reflexivity|]. split; [reflexivity|]. split; [reflexivity|].
    split; [reflexivity|].
    do 5 eexists. split; [reflexivity|].
    split; [reflexivity|]. split; [reflexivity|]. split; [reflexivity|].
    repeat split; apply Hmax; reflexivity.
Qed.

End CoordinatorMore.

Section CoordinatorMoreRuns.
Import PyFloat Coordinator.

(** A failed run that keeps its intermediates deletes nothing. *)
Lemma no_cleanup_no_deletion_witness :
  Unlinked "/storage/temp/speech_1700000000.wav"
  ∉ snd (execute_traced (demo_world 15) "/storage/temp" "Hello" "vp-1"
           "avatar.png" "out.mp4" (Some (short_config false))).
Proof.
  apply (no_cleanup_no_deletion (demo_world 15) "/storage/temp" "Hello"
           "vp-1" "avatar.png" "out.mp4" (short_config false)).
  reflexivity.
Defined.


(** The run that exceeds the duration limit: without cleanup a
    successful run keeps its map; with cleanup the failed run returns
    no map and has deleted the audio it recorded. *)
Lemma intermediates_in_result_witness :
  intermediate_files
    (execute (demo_world 5) "/storage/temp" "Hello" "vp-1" "avatar.png"
             "out.mp4" (Some (short_config false)))
    = files_so_far
        (snd (run_stages (demo_world 5) "/storage/temp" "Hello" "vp-1"
                "avatar.png" "out.mp4" (short_config false) init_locals))
  /\ intermediate_files
       (execute (demo_world 15) "/storage/temp" "Hello" "vp-1" "avatar.png"
                "out.mp4" (Some (short_config true)))
     = None
  /\ Unlinked "/storage/temp/speech_1700000000.wav"
     ∈ snd (execute_traced (demo_world 15) "/storage/temp" "Hello" "vp-1"
              "avatar.png" "out.mp4" (Some (short_config true))).
Proof.
  split.
  - refine (proj1 (proj1 (intermediates_in_result (demo_world 5)
              "/storage/temp" "Hello" "vp-1" "avatar.png" "out.mp4"
              (Some (short_config false))) _ _)).
    + vm_compute. reflexivity.
    + reflexivity.
  - assert (Hfailed : success (execute (demo_world 15) "/storage/temp" "Hello"
                                 "vp-1" "avatar.png" "out.mp4"
                                 (Some (short_config true))) = false).
    { vm_compute. reflexivity. }
    destruct (proj2 (intermediates_in_result (demo_world 15) "/storage/temp"
                       "Hello" "vp-1" "avatar.png" "out.mp4"
                       (Some (short_config true))) Hfailed eq_refl)
      as [Hnone Hdel].
    split; [exact Hnone|].
    apply Hdel. split; [|split; reflexivity].
    exists "audio". vm_compute. left.
Defined.

(** Four words of text: the estimate is made and lists the stages. *)
Lemma estimate_duration_floors_witness :
  let est := estimate_duration (demo_world 5) (fun _ => zero)
               (fun _ => Ok 4) "one two three four" "vp-1" in
  est_error est = None
  /\ est_audio_duration est = synthesizer_estimate 4
  /\ map fst (est_stages est) = all_stages.
Proof.
  intros est.
  destruct (proj2 (proj2 (estimate_duration_floors (demo_world 5)
                            (fun _ => zero) (fun _ => Ok 4)
                            "one two three four" "vp-1"))
              {| profile_name := "Narrator"; profile_language := "en" |} 4
              eq_refl eq_refl) as (He & Ha & Hs & _).
  split; [exact He|]. split; [exact Ha|exact Hs].
Defined.

Lemma success_needs_every_stage_witness :
  exists profile sr det verdict lr enc,
    load_profile (demo_world 5) "vp-1" = Ok profile
    /\ synthesize (demo_world 5) "Hello" profile
         (temp_file "/storage/temp" "speech"
            (clock (demo_world 5) CSynthesize) ".wav") = Ok sr
    /\ synth_success sr = true
    /\ gt_int (synth_duration_seconds sr)
              (max_video_length_seconds (default default_config None))
       = false
    /\ avatar_exists (demo_world 5) "avatar.png" = true
    /\ detect (demo_world 5) "avatar.png" = Ok det /\ detected det = true
    /\ validate_for_lipsync (demo_world 5) det = Ok verdict
    /\ fst verdict = true
    /\ generate (demo_world 5) "avatar.png" (audio_path sr)
         (temp_file "/storage/temp" "lipsync"
            (clock (demo_world 5) CGenerate) ".mp4")
         (lipsync_config_of (default default_config None)) = Ok lr
    /\ lipsync_success lr = true
    /\ encode (demo_world 5) (video_path lr) "out.mp4"
         (encoding_config_of (default default_config None)) = Ok enc
    /\ encoding_success enc = true
    /\ duration_seconds
         (execute (demo_world 5) "/storage/temp" "Hello" "vp-1" "avatar.png"
                  "out.mp4" None)
       = encoding_duration_seconds enc.
Proof.
  apply (success_needs_every_stage (demo_world 5) "/storage/temp" "Hello"
           "vp-1" "avatar.png" "out.mp4" None).
  vm_compute. reflexivity.
Defined.

(** Four words of text: each stage estimate sits on its floor. *)
Example estimate_four_words :
  map fst (est_stages (estimate_duration (demo_world 5)
                         (fun _ => zero) (fun _ => Ok 4) "one two three four"
                         "vp-1"))
  = all_stages.
Proof. reflexivity. Qed.

End CoordinatorMoreRuns.
